(** * put-logs.py: a shallow embedding and its properties

    The script [metrique-writer-format-emf/tools/put-logs.py] parses its
    command line, reads a JSON file, rewrites the [_aws.Timestamp] field of
    every record to "one second ago" and sends the records to CloudWatch Logs
    in one [put_log_events] call.

    Python values are embedded as an inductive type, [str] as a list of code
    points, [dict] as an insertion-ordered association list.  The library
    functions the script calls ([argparse], [open], [json.loads],
    [json.dumps]) are embedded from their CPython behaviour; [time.time] and
    the CloudWatch client are oracles of the [World] the script runs in.
    Floating-point numbers and their arithmetic are kept abstract (class
    [PyFloat]); the limits of the interpreter (recursion depth, length of
    integer literals), its Unicode tables and the locale's codec belong to
    the [World]. *)

From Stdlib Require Import List ZArith NArith Bool Lia String Ascii.
Import ListNotations.
Local Open Scope Z_scope.

Set Implicit Arguments.

(* ------------------------------------------------------------------ *)
(** ** Python strings *)

(** A [str] is a sequence of Unicode code points. *)
Definition pystr := list N.

Definition py (s : string) : pystr :=
  List.map N_of_ascii (list_ascii_of_string s).

Fixpoint str_eqb (a b : pystr) : bool :=
  match a, b with
  | [], [] => true
  | x :: a', y :: b' => N.eqb x y && str_eqb a' b'
  | _, _ => false
  end.

(** [s[len(p):]] when [s.startswith(p)]. *)
Fixpoint strip_prefix (p s : pystr) : option pystr :=
  match p with
  | [] => Some s
  | c :: p' =>
      match s with
      | d :: s' => if N.eqb c d then strip_prefix p' s' else None
      | [] => None
      end
  end.

Definition startswith (s p : pystr) : bool :=
  match strip_prefix p s with Some _ => true | None => false end.

Definition in_range (lo hi c : N) : bool := (N.leb lo c && N.leb c hi)%bool.

Definition is_digit (c : N) : bool := in_range 48 57 c.
Definition is_high_surrogate (c : N) : bool := in_range 55296 56319 c.
Definition is_low_surrogate (c : N) : bool := in_range 56320 57343 c.

(* ------------------------------------------------------------------ *)
(** ** Floats

    [float] values are opaque.  The script parses and prints the floats of
    a record, and computes with the readings of the clock: a product, a
    difference and a conversion to [int], all in floating point. *)

Inductive float_kind := FFinite | FNaN | FPosInf | FNegInf.

Class PyFloat := {
  float : Type;
  (** [float(text)] on a matched number literal *)
  float_of_str : pystr -> float;
  (** [float.__repr__] *)
  float_repr : float -> pystr;
  (** the tests [o != o], [o == INFINITY], [o == -INFINITY] of the encoder *)
  float_kind_of : float -> float_kind;
  (** the constants of [json.decoder] *)
  NaN : float;
  PosInf : float;
  NegInf : float;
  (** [float(n)], the conversion of an [int] operand *)
  float_of_int : Z -> float;
  (** [x * y] and [x - y] *)
  float_mul : float -> float -> float;
  float_sub : float -> float -> float;
  (** [int(x)] of a finite float (the readings of the clock are finite) *)
  float_trunc : float -> Z;
  (** [x <= y] *)
  float_le : float -> float -> Prop
}.

(** ** Exceptions *)

Inductive exn :=
| SystemExit (code : Z)
| OSError
| UnicodeDecodeError
| JSONDecodeError
| RecursionError
| ValueError
| TypeError
| AttributeError
| BotoError.

(* ------------------------------------------------------------------ *)
(** ** Python values as [json.loads] builds them *)

Section Values.
Context {F : PyFloat}.

#[local] Unset Elimination Schemes.
Inductive pyval :=
| PNone
| PBool (b : bool)
| PInt (z : Z)
| PFloat (f : float)
| PStr (s : pystr)
| PList (l : list pyval)
| PDict (d : list (pystr * pyval)).
#[local] Set Elimination Schemes.

(** A [dict] with [str] keys, in insertion order. *)
Definition dict := list (pystr * pyval).

Fixpoint dict_get (d : dict) (k : pystr) : option pyval :=
  match d with
  | [] => None
  | (k', v) :: r => if str_eqb k' k then Some v else dict_get r k
  end.

(** [d[k] = v]: an existing key keeps its place, a new key goes last. *)
Fixpoint dict_set (d : dict) (k : pystr) (v : pyval) : dict :=
  match d with
  | [] => [(k, v)]
  | (k', v') :: r =>
      if str_eqb k' k then (k', v) :: r else (k', v') :: dict_set r k v
  end.

(** [dict(pairs)] *)
Definition dict_of_pairs (pairs : list (pystr * pyval)) : dict :=
  fold_left (fun d kv => dict_set d (fst kv) (snd kv)) pairs [].

Definition keys (d : dict) : list pystr := List.map fst d.

(* ------------------------------------------------------------------ *)
(** ** json.dumps (default arguments) *)

Fixpoint uint_chars (u : Decimal.uint) : pystr :=
  match u with
  | Decimal.Nil => []
  | Decimal.D0 u => 48%N :: uint_chars u
  | Decimal.D1 u => 49%N :: uint_chars u
  | Decimal.D2 u => 50%N :: uint_chars u
  | Decimal.D3 u => 51%N :: uint_chars u
  | Decimal.D4 u => 52%N :: uint_chars u
  | Decimal.D5 u => 53%N :: uint_chars u
  | Decimal.D6 u => 54%N :: uint_chars u
  | Decimal.D7 u => 55%N :: uint_chars u
  | Decimal.D8 u => 56%N :: uint_chars u
  | Decimal.D9 u => 57%N :: uint_chars u
  end.

(** [int.__repr__] *)
Definition int_repr (z : Z) : pystr :=
  match Z.to_int z with
  | Decimal.Pos u => uint_chars u
  | Decimal.Neg u => 45%N :: uint_chars u
  end.

(** [float.__repr__] with the encoder's special cases ([allow_nan=True]). *)
Definition floatstr (f : float) : pystr :=
  match float_kind_of f with
  | FNaN => py "NaN"
  | FPosInf => py "Infinity"
  | FNegInf => py "-Infinity"
  | FFinite => float_repr f
  end.

Definition hex_digit (n : N) : N :=
  if N.ltb n 10 then (48 + n)%N else (87 + n)%N.

(** ['\\u{0:04x}'.format(n)] *)
Definition u_escape (n : N) : pystr :=
  [92; 117;
   hex_digit (N.land (N.shiftr n 12) 15);
   hex_digit (N.land (N.shiftr n 8) 15);
   hex_digit (N.land (N.shiftr n 4) 15);
   hex_digit (N.land n 15)]%N.

(** The replacement of one character by [py_encode_basestring_ascii]. *)
Definition escape_char (c : N) : pystr :=
  if N.eqb c 34 then [92; 34]%N
  else if N.eqb c 92 then [92; 92]%N
  else if N.eqb c 10 then [92; 110]%N
  else if N.eqb c 13 then [92; 114]%N
  else if N.eqb c 9 then [92; 116]%N
  else if N.eqb c 12 then [92; 102]%N
  else if N.eqb c 8 then [92; 98]%N
  else if in_range 32 126 c then [c]
  else if N.ltb c 65536 then u_escape c
  else
    let n := (c - 65536)%N in
    u_escape (N.lor 55296 (N.land (N.shiftr n 10) 1023))
    ++ u_escape (N.lor 56320 (N.land n 1023)).

Definition encode_basestring_ascii (s : pystr) : pystr :=
  34%N :: flat_map escape_char s ++ [34%N].

(** [sep.join(parts)] *)
Fixpoint join (sep : pystr) (parts : list pystr) : pystr :=
  match parts with
  | [] => []
  | [p] => p
  | p :: ps => p ++ sep ++ join sep ps
  end.

Section Encoder.

(** The attributes [item_separator] and [key_separator] of [JSONEncoder]. *)
Variables item_separator key_separator : pystr.

(** [JSONEncoder.encode] with [ensure_ascii=True] and no indentation. *)
Fixpoint encode (v : pyval) : pystr :=
  match v with
  | PNone => py "null"
  | PBool true => py "true"
  | PBool false => py "false"
  | PInt z => int_repr z
  | PFloat f => floatstr f
  | PStr s => encode_basestring_ascii s
  | PList l => 91%N :: join item_separator (List.map encode l) ++ [93%N]
  | PDict d =>
      123%N :: join item_separator
                 (List.map (fun kv => encode_basestring_ascii (fst kv)
                                      ++ key_separator ++ encode (snd kv)) d)
            ++ [125%N]
  end.

End Encoder.

(** [json.dumps(v)], when it returns: the default separators are [', ']
    and [': ']. *)
Definition json_dumps (v : pyval) : pystr := encode (py ", ") (py ": ") v.

(** The limit on the digits of an integer in a conversion from or to
    [str] ([sys.int_max_str_digits]; 0 is no limit), applied to
    conversions of more than 640 digits. *)
Definition exceeds_digits (max_digits digits : nat) : bool :=
  (Nat.ltb 0 max_digits && Nat.ltb max_digits digits
   && Nat.ltb 640 digits)%bool.

Definition int_digits (z : Z) : nat :=
  match Z.to_int z with
  | Decimal.Pos u => List.length (uint_chars u)
  | Decimal.Neg u => List.length (uint_chars u)
  end.

Fixpoint first_error (l : list (option exn)) : option exn :=
  match l with
  | [] => None
  | Some e :: _ => Some e
  | None :: r => first_error r
  end.

(** The exception [json.dumps(v)] raises, if any: [RecursionError] when
    the encoder enters more nested lists and dicts than [depth],
    [ValueError] at an integer with too many digits; the members of a
    container are encoded in order. *)
Fixpoint encode_error (max_digits depth : nat) (v : pyval) {struct v}
  : option exn :=
  match v with
  | PInt z =>
      if exceeds_digits max_digits (int_digits z) then Some ValueError
      else None
  | PList l =>
      match depth with
      | O => Some RecursionError
      | S d => first_error (List.map (encode_error max_digits d) l)
      end
  | PDict kvs =>
      match depth with
      | O => Some RecursionError
      | S d =>
          first_error
            (List.map (fun kv => encode_error max_digits d (snd kv)) kvs)
      end
  | _ => None
  end.

(* ------------------------------------------------------------------ *)
(** ** json.loads (default arguments)

    The scanner follows [json.scanner] and [json.decoder]: recursive
    descent over the text.  [depth] is the number of nested arrays and
    objects the decoder may enter before the interpreter raises
    [RecursionError]; [fuel] only makes the recursion on the text
    structural, and text never exhausts it (see [decode_not_exhausted]). *)

Inductive scan (A : Type) :=
| Scanned (a : A) (rest : pystr)
| Raised (e : exn)
| Exhausted.
Arguments Raised {A}.
Arguments Exhausted {A}.

Definition is_ws (c : N) : bool :=
  (N.eqb c 32 || N.eqb c 9 || N.eqb c 10 || N.eqb c 13)%bool.

(** [WHITESPACE.match(s, idx).end()] *)
Fixpoint skip_ws (s : pystr) : pystr :=
  match s with
  | c :: r => if is_ws c then skip_ws r else s
  | [] => []
  end.

Definition hex_value (c : N) : option N :=
  if in_range 48 57 c then Some (c - 48)%N
  else if in_range 97 102 c then Some (c - 87)%N
  else if in_range 65 70 c then Some (c - 55)%N
  else None.

Definition hex4 (a b c d : N) : option N :=
  match hex_value a, hex_value b, hex_value c, hex_value d with
  | Some x, Some y, Some z, Some w => Some (x * 4096 + y * 256 + z * 16 + w)%N
  | _, _, _, _ => None
  end.

(** The table [BACKSLASH] of [json.decoder]. *)
Definition backslash (c : N) : option N :=
  if N.eqb c 34 then Some 34%N
  else if N.eqb c 92 then Some 92%N
  else if N.eqb c 47 then Some 47%N
  else if N.eqb c 98 then Some 8%N
  else if N.eqb c 102 then Some 12%N
  else if N.eqb c 110 then Some 10%N
  else if N.eqb c 114 then Some 13%N
  else if N.eqb c 116 then Some 9%N
  else None.

Definition prepend (c : N) (x : pystr * pystr) : pystr * pystr :=
  (c :: fst x, snd x).

(** The code point of a surrogate pair. *)
Definition join_surrogates (hi lo : N) : N :=
  (65536 + (hi - 55296) * 1024 + (lo - 56320))%N.

(** [scanstring(s, end, strict=True)], from the character after the opening
    quote; the result is the string and the text after the closing quote.
    An escaped high surrogate directly followed by an escaped low surrogate
    is one character. *)
Fixpoint scanstring (s : pystr) : option (pystr * pystr) :=
  match s with
  | [] => None
  | c :: r =>
      if N.eqb c 34 then Some ([], r)
      else if N.eqb c 92 then
        match r with
        | [] => None
        | e :: r1 =>
            if N.eqb e 117 then
              match r1 with
              | a :: b :: c1 :: d :: r2 =>
                  match hex4 a b c1 d with
                  | None => None
                  | Some uni =>
                      let single := option_map (prepend uni) (scanstring r2) in
                      if is_high_surrogate uni then
                        match r2 with
                        | x :: y :: a' :: b' :: c' :: d' :: r3 =>
                            if (N.eqb x 92 && N.eqb y 117)%bool then
                              match hex4 a' b' c' d' with
                              | None => None
                              | Some lo =>
                                  if is_low_surrogate lo then
                                    option_map
                                      (prepend (join_surrogates uni lo))
                                      (scanstring r3)
                                  else single
                              end
                            else single
                        | _ => single
                        end
                      else single
                  end
              | _ => None
              end
            else
              match backslash e with
              | None => None
              | Some x => option_map (prepend x) (scanstring r1)
              end
        end
      else if N.ltb c 32 then None
      else option_map (prepend c) (scanstring r)
  end.

(** The longest run of decimal digits. *)
Fixpoint span_digits (s : pystr) : pystr * pystr :=
  match s with
  | c :: r =>
      if is_digit c then let (ds, r') := span_digits r in (c :: ds, r')
      else ([], s)
  | [] => ([], [])
  end.

Fixpoint chars_uint (s : pystr) : Decimal.uint :=
  match s with
  | [] => Decimal.Nil
  | c :: r =>
      let u := chars_uint r in
      if N.eqb c 48 then Decimal.D0 u
      else if N.eqb c 49 then Decimal.D1 u
      else if N.eqb c 50 then Decimal.D2 u
      else if N.eqb c 51 then Decimal.D3 u
      else if N.eqb c 52 then Decimal.D4 u
      else if N.eqb c 53 then Decimal.D5 u
      else if N.eqb c 54 then Decimal.D6 u
      else if N.eqb c 55 then Decimal.D7 u
      else if N.eqb c 56 then Decimal.D8 u
      else Decimal.D9 u
  end.

(** The three groups of [NUMBER_RE]: an integer part (optional minus, then
    a single zero or a digit from 1 to 9 followed by digits), an optional
    fraction (a dot and one or more digits) and an optional exponent (e or
    E, an optional sign, one or more digits). *)
Definition match_integer (s : pystr) : option (pystr * pystr) :=
  let body s1 :=
    match s1 with
    | c :: r =>
        if N.eqb c 48 then Some ([c], r)
        else if in_range 49 57 c then
          let (ds, r') := span_digits r in Some (c :: ds, r')
        else None
    | [] => None
    end in
  match s with
  | 45%N :: s1 =>
      match body s1 with
      | Some (ds, r) => Some (45%N :: ds, r)
      | None => None
      end
  | _ => body s
  end.

Definition match_frac (s : pystr) : pystr * pystr :=
  match s with
  | 46%N :: c :: r =>
      if is_digit c then
        let (ds, r') := span_digits r in (46%N :: c :: ds, r')
      else ([], s)
  | _ => ([], s)
  end.

Definition match_exp (s : pystr) : pystr * pystr :=
  match s with
  | e :: r =>
      if (N.eqb e 101 || N.eqb e 69)%bool then
        match r with
        | sg :: c :: r1 =>
            if ((N.eqb sg 45 || N.eqb sg 43) && is_digit c)%bool then
              let (ds, r') := span_digits r1 in (e :: sg :: c :: ds, r')
            else if is_digit sg then
              let (ds, r') := span_digits (c :: r1) in (e :: sg :: ds, r')
            else ([], s)
        | [c] => if is_digit c then ([e; c], []) else ([], s)
        | [] => ([], s)
        end
      else ([], s)
  | [] => ([], s)
  end.

(** [int(text)] on the integer group. *)
Definition int_of_str (s : pystr) : Z :=
  match s with
  | 45%N :: ds => Z.of_int (Decimal.Neg (chars_uint ds))
  | _ => Z.of_int (Decimal.Pos (chars_uint s))
  end.

(** The text matched by [NUMBER_RE]: the three groups and what follows. *)
Definition number_groups (s : pystr)
  : option (pystr * pystr * pystr * pystr) :=
  match match_integer s with
  | None => None
  | Some (i, r) =>
      let (f, r1) := match_frac r in
      let (e, r2) := match_exp r1 in
      Some (i, f, e, r2)
  end.

Definition digits_of (i : pystr) : nat :=
  match i with
  | 45%N :: ds => List.length ds
  | _ => List.length i
  end.

Section Scanner.

(** The hook [parse_constant] of the decoder; [None] when it raises. *)
Variable parse_constant : pystr -> option float.

(** [sys.int_max_str_digits]. *)
Variable max_digits : nat.

Definition scan_constant (name rest : pystr) : scan pyval :=
  match parse_constant name with
  | Some f => Scanned (PFloat f) rest
  | None => Raised JSONDecodeError
  end.

(** A number: [float(text)] with a fraction or an exponent, [int(text)]
    without, which raises [ValueError] on too many digits. *)
Definition scan_number (s : pystr) : option (scan pyval) :=
  match number_groups s with
  | None => None
  | Some (i, f, e, r) =>
      match f, e with
      | [], [] =>
          if exceeds_digits max_digits (digits_of i)
          then Some (Raised ValueError)
          else Some (Scanned (PInt (int_of_str i)) r)
      | _, _ => Some (Scanned (PFloat (float_of_str (i ++ f ++ e))) r)
      end
  end.

(** A value that is neither a string, an array nor an object. *)
Definition scan_atom (s : pystr) : scan pyval :=
  match strip_prefix (py "null") s with
  | Some r => Scanned PNone r
  | None =>
  match strip_prefix (py "true") s with
  | Some r => Scanned (PBool true) r
  | None =>
  match strip_prefix (py "false") s with
  | Some r => Scanned (PBool false) r
  | None =>
  match scan_number s with
  | Some res => res
  | None =>
  match strip_prefix (py "NaN") s with
  | Some r => scan_constant (py "NaN") r
  | None =>
  match strip_prefix (py "Infinity") s with
  | Some r => scan_constant (py "Infinity") r
  | None =>
  match strip_prefix (py "-Infinity") s with
  | Some r => scan_constant (py "-Infinity") r
  | None => Raised JSONDecodeError
  end end end end end end end.

Fixpoint scan_once (depth fuel : nat) (s : pystr) {struct fuel}
  : scan pyval :=
  match fuel with
  | O => Exhausted
  | S fuel =>
      match s with
      | [] => Raised JSONDecodeError
      | c :: r =>
          if N.eqb c 34 then
            match scanstring r with
            | Some (t, r') => Scanned (PStr t) r'
            | None => Raised JSONDecodeError
            end
          else if N.eqb c 123 then
            match depth with
            | O => Raised RecursionError
            | S depth =>
                match skip_ws r with
                | c1 :: r1 =>
                    if N.eqb c1 125 then Scanned (PDict []) r1
                    else if N.eqb c1 34 then
                      match JSONObject depth fuel r1 with
                      | Scanned pairs r2 =>
                          Scanned (PDict (dict_of_pairs pairs)) r2
                      | Raised e => Raised e
                      | Exhausted => Exhausted
                      end
                    else Raised JSONDecodeError
                | [] => Raised JSONDecodeError
                end
            end
          else if N.eqb c 91 then
            match depth with
            | O => Raised RecursionError
            | S depth =>
                match skip_ws r with
                | c1 :: r1 =>
                    if N.eqb c1 93 then Scanned (PList []) r1
                    else
                      match JSONArray depth fuel (c1 :: r1) with
                      | Scanned items r2 => Scanned (PList items) r2
                      | Raised e => Raised e
                      | Exhausted => Exhausted
                      end
                | [] => Raised JSONDecodeError
                end
            end
          else scan_atom s
      end
  end

(** The pairs of an object, from the character after the opening quote of
    a key. *)
with JSONObject (depth fuel : nat) (s : pystr) {struct fuel}
  : scan (list (pystr * pyval)) :=
  match fuel with
  | O => Exhausted
  | S fuel =>
      match scanstring s with
      | None => Raised JSONDecodeError
      | Some (key, r) =>
          match skip_ws r with
          | c :: r1 =>
              if N.eqb c 58 then
                match scan_once depth fuel (skip_ws r1) with
                | Scanned v r2 =>
                    match skip_ws r2 with
                    | c2 :: r3 =>
                        if N.eqb c2 125 then Scanned [(key, v)] r3
                        else if N.eqb c2 44 then
                          match skip_ws r3 with
                          | c3 :: r4 =>
                              if N.eqb c3 34 then
                                match JSONObject depth fuel r4 with
                                | Scanned pairs r5 =>
                                    Scanned ((key, v) :: pairs) r5
                                | Raised e => Raised e
                                | Exhausted => Exhausted
                                end
                              else Raised JSONDecodeError
                          | [] => Raised JSONDecodeError
                          end
                        else Raised JSONDecodeError
                    | [] => Raised JSONDecodeError
                    end
                | Raised e => Raised e
                | Exhausted => Exhausted
                end
              else Raised JSONDecodeError
          | [] => Raised JSONDecodeError
          end
      end
  end

(** The items of a non-empty array, from its first item. *)
with JSONArray (depth fuel : nat) (s : pystr) {struct fuel}
  : scan (list pyval) :=
  match fuel with
  | O => Exhausted
  | S fuel =>
      match scan_once depth fuel s with
      | Scanned v r =>
          match skip_ws r with
          | c :: r1 =>
              if N.eqb c 93 then Scanned [v] r1
              else if N.eqb c 44 then
                match JSONArray depth fuel (skip_ws r1) with
                | Scanned items r2 => Scanned (v :: items) r2
                | Raised e => Raised e
                | Exhausted => Exhausted
                end
              else Raised JSONDecodeError
          | [] => Raised JSONDecodeError
          end
      | Raised e => Raised e
      | Exhausted => Exhausted
      end
  end.

(** Fuel that no text exhausts. *)
Definition enough_fuel (s : pystr) : nat := 2 * List.length s + 2.

(** [JSONDecoder.decode], after the test for a byte order mark that
    [json.loads] makes on a [str]. *)
Definition decode (depth : nat) (s : pystr) : scan pyval :=
  if startswith s [65279%N] then Raised JSONDecodeError
  else
    match scan_once depth (enough_fuel s) (skip_ws s) with
    | Scanned v r =>
        match skip_ws r with
        | [] => Scanned v []
        | _ :: _ => Raised JSONDecodeError
        end
    | Raised e => Raised e
    | Exhausted => Exhausted
    end.

End Scanner.

(** [_CONSTANTS.__getitem__], the default [parse_constant]. *)
Definition constants (name : pystr) : option float :=
  if str_eqb name (py "NaN") then Some NaN
  else if str_eqb name (py "Infinity") then Some PosInf
  else if str_eqb name (py "-Infinity") then Some NegInf
  else None.

(** [json.loads(s)] for a [str], in an interpreter that allows integer
    literals of [max_digits] digits and [depth] nested containers. *)
Definition json_loads (max_digits depth : nat) (s : pystr) : scan pyval :=
  decode constants max_digits depth s.

End Values.

Arguments Raised {A}.
Arguments Exhausted {A}.

(* ------------------------------------------------------------------ *)
(** ** argparse: the parser built by [main]

    One positional [file]; [--log-group] and [--log-stream], required;
    [--region], optional; [-h]/[--help] added by [ArgumentParser].  The
    model follows [ArgumentParser.parse_args] of CPython 3.12: every
    argument is first classified ([_parse_optional]), then the arguments
    are consumed from left to right.  [decimal] is the set of decimal
    digits of the interpreter's Unicode database, the class that the
    regular expressions of [argparse] call [\d]. *)

Inductive action := ActHelp | ActLogGroup | ActLogStream | ActRegion.

(** [parser._option_string_actions], in insertion order. *)
Definition option_string_actions : list (pystr * action) :=
  [ (py "-h", ActHelp); (py "--help", ActHelp);
    (py "--log-group", ActLogGroup); (py "--log-stream", ActLogStream);
    (py "--region", ActRegion) ].

Fixpoint lookup_action (tbl : list (pystr * action)) (s : pystr)
  : option action :=
  match tbl with
  | [] => None
  | (o, a) :: r => if str_eqb o s then Some a else lookup_action r s
  end.

(** [s.split('=', 1)] when ['=' in s]. *)
Fixpoint split_eq (s : pystr) : option (pystr * pystr) :=
  match s with
  | [] => None
  | c :: r =>
      if N.eqb c 61 then Some ([], r)
      else match split_eq r with
           | Some (a, b) => Some (c :: a, b)
           | None => None
           end
  end.

(** One classified argument: ['A'], the first ['--'], or ['O'] with the
    option tuple (action, option string, explicit argument). *)
Inductive token :=
| TArg (s : pystr)
| TSep
| TOpt (a : option action) (option_string : pystr) (explicit : option pystr).

(** [_get_option_tuples]: the options the argument abbreviates. *)
Definition get_option_tuples (arg : pystr) : list token :=
  match arg with
  | c0 :: c :: rest =>
      if negb (N.eqb c0 45) then []
      else if N.eqb c 45 then
        let (prefix, explicit) :=
          match split_eq arg with
          | Some (p, e) => (p, Some e)
          | None => (arg, None)
          end in
        flat_map (fun oa => if startswith (fst oa) prefix
                            then [TOpt (Some (snd oa)) (fst oa) explicit]
                            else [])
                 option_string_actions
      else
        flat_map (fun oa => if str_eqb (fst oa) [45%N; c]
                            then [TOpt (Some (snd oa)) (fst oa) (Some rest)]
                            else if startswith (fst oa) arg
                            then [TOpt (Some (snd oa)) (fst oa) None]
                            else [])
                 option_string_actions
  | _ => []
  end.

(** The longest run of characters of a class. *)
Fixpoint span_class (p : N -> bool) (s : pystr) : pystr * pystr :=
  match s with
  | c :: r =>
      if p c then let (ds, r') := span_class p r in (c :: ds, r')
      else ([], s)
  | [] => ([], [])
  end.

(** The end of a pattern, [$]: the end of the string, or the newline that
    ends the string. *)
Definition at_end (s : pystr) : bool :=
  match s with
  | [] => true
  | [c] => N.eqb c 10
  | _ => false
  end.

(** [_negative_number_matcher]: a minus sign followed by digits, or by
    optional digits, a dot and digits, up to the end. *)
Definition negative_number (decimal : N -> bool) (arg : pystr) : bool :=
  match arg with
  | 45%N :: r =>
      match span_class decimal r with
      | (_ :: _, r1) =>
          if at_end r1 then true
          else
            match r1 with
            | 46%N :: r' =>
                match span_class decimal r' with
                | (_ :: _, r2) => at_end r2
                | _ => false
                end
            | _ => false
            end
      | ([], 46%N :: r') =>
          match span_class decimal r' with
          | (_ :: _, r2) => at_end r2
          | _ => false
          end
      | _ => false
      end
  | _ => false
  end.

(** [_parse_optional]: [inr None] for a positional argument. *)
Definition parse_optional (decimal : N -> bool) (arg : pystr)
  : exn + option token :=
  match arg with
  | [] => inr None
  | c :: r =>
      if negb (N.eqb c 45) then inr None
      else
        match lookup_action option_string_actions arg with
        | Some a => inr (Some (TOpt (Some a) arg None))
        | None =>
            match r with
            | [] => inr None
            | _ :: _ =>
                let by_equals :=
                  match split_eq arg with
                  | Some (o, e) =>
                      match lookup_action option_string_actions o with
                      | Some a => Some (TOpt (Some a) o (Some e))
                      | None => None
                      end
                  | None => None
                  end in
                match by_equals with
                | Some t => inr (Some t)
                | None =>
                    match get_option_tuples arg with
                    | _ :: _ :: _ => inl (SystemExit 2)
                    | [t] => inr (Some t)
                    | [] =>
                        if negative_number decimal arg then inr None
                        else if existsb (N.eqb 32) arg then inr None
                        else inr (Some (TOpt None arg None))
                    end
                end
            end
        end
  end.

(** The classification pass: everything after the first ['--'] is ['A']. *)
Fixpoint classify (decimal : N -> bool) (argv : list pystr)
  : exn + list token :=
  match argv with
  | [] => inr []
  | arg :: rest =>
      if str_eqb arg (py "--") then inr (TSep :: List.map TArg rest)
      else
        match parse_optional decimal arg with
        | inl e => inl e
        | inr kind =>
            match classify decimal rest with
            | inl e => inl e
            | inr toks =>
                inr (match kind with Some t => t | None => TArg arg end :: toks)
            end
        end
  end.

(** The namespace while arguments are consumed. *)
Record Namespace := {
  ns_file : option pystr;
  ns_log_group : option pystr;
  ns_log_stream : option pystr;
  ns_region : option pystr
}.

Definition empty_namespace : Namespace :=
  {| ns_file := None; ns_log_group := None; ns_log_stream := None;
     ns_region := None |}.

Definition set_file (x : pystr) (ns : Namespace) : Namespace :=
  {| ns_file := Some x; ns_log_group := ns_log_group ns;
     ns_log_stream := ns_log_stream ns; ns_region := ns_region ns |}.

Definition store (a : action) (x : pystr) (ns : Namespace) : Namespace :=
  match a with
  | ActLogGroup =>
      {| ns_file := ns_file ns; ns_log_group := Some x;
         ns_log_stream := ns_log_stream ns; ns_region := ns_region ns |}
  | ActLogStream =>
      {| ns_file := ns_file ns; ns_log_group := ns_log_group ns;
         ns_log_stream := Some x; ns_region := ns_region ns |}
  | ActRegion =>
      {| ns_file := ns_file ns; ns_log_group := ns_log_group ns;
         ns_log_stream := ns_log_stream ns; ns_region := Some x |}
  | ActHelp => ns
  end.

(** How the consumption of the arguments ends. *)
Inductive parse_stop :=
| AllConsumed (extras : list pystr)
| HelpPrinted
| UsageError.

(** [-h] with an explicit argument: the argument is read as further
    single-dash flags, and [-h] is the only one. *)
Definition help_with_explicit (option_string explicit : pystr) : parse_stop :=
  match option_string, explicit with
  | [45%N; 104%N], _ :: _ =>
      if forallb (N.eqb 104) explicit then HelpPrinted else UsageError
  | _, _ => UsageError
  end.

(** [consume_optional] and [consume_positionals] in their loop.  An option
    with one argument takes the next ['A'] (the first ['--'] beside it is
    dropped); so does the positional [file] while it is unset. *)
Fixpoint consume (toks : list token) (ns : Namespace) (extras : list pystr)
  : Namespace * parse_stop :=
  match toks with
  | [] => (ns, AllConsumed extras)
  | TOpt None os _ :: rest => consume rest ns (extras ++ [os])
  | TOpt (Some ActHelp) os None :: _ => (ns, HelpPrinted)
  | TOpt (Some ActHelp) os (Some e) :: _ => (ns, help_with_explicit os e)
  | TOpt (Some a) os (Some e) :: rest => consume rest (store a e ns) extras
  | TOpt (Some a) os None :: rest =>
      match rest with
      | TArg x :: TSep :: rest' => consume rest' (store a x ns) extras
      | TArg x :: rest' => consume rest' (store a x ns) extras
      | TSep :: TArg x :: rest' => consume rest' (store a x ns) extras
      | _ => (ns, UsageError)
      end
  | TArg x :: rest =>
      match ns_file ns with
      | None =>
          match rest with
          | TSep :: rest' => consume rest' (set_file x ns) extras
          | _ => consume rest (set_file x ns) extras
          end
      | Some _ => consume rest ns (extras ++ [x])
      end
  | TSep :: rest =>
      match ns_file ns with
      | None =>
          match rest with
          | TArg x :: rest' => consume rest' (set_file x ns) extras
          | _ => consume rest ns (extras ++ [py "--"])
          end
      | Some _ => consume rest ns (extras ++ [py "--"])
      end
  end.

(** The namespace and the way parsing stopped; an ambiguous abbreviation
    stops it before any argument is consumed. *)
Definition parse_known_args (decimal : N -> bool) (argv : list pystr)
  : Namespace * parse_stop :=
  match classify decimal argv with
  | inl _ => (empty_namespace, UsageError)
  | inr toks => consume toks empty_namespace []
  end.

(** What [parse_args] returns to [main]. *)
Record Args := {
  file : pystr;
  log_group : pystr;
  log_stream : pystr;
  region : option pystr
}.

(** [parser.parse_args()]: help exits with status 0; a usage error, a
    missing required argument and an unrecognized argument exit with
    status 2. *)
Definition parse_args (decimal : N -> bool) (argv : list pystr)
  : exn + Args :=
  match parse_known_args decimal argv with
  | (_, HelpPrinted) => inl (SystemExit 0)
  | (_, UsageError) => inl (SystemExit 2)
  | (ns, AllConsumed extras) =>
      match ns_file ns, ns_log_group ns, ns_log_stream ns, extras with
      | Some f, Some g, Some s, [] =>
          inr {| file := f; log_group := g; log_stream := s;
                 region := ns_region ns |}
      | _, _, _, _ => inl (SystemExit 2)
      end
  end.

(* ------------------------------------------------------------------ *)
(** ** Reading the file: [open(path, 'r')] and [file.read()]

    Text mode decodes the bytes with the codec of the locale, with strict
    error handling, and translates line ends (universal newlines).  The
    codec belongs to the [World]; UTF-8 is the codec of the sample worlds. *)

Definition is_cont (b : N) : bool := in_range 128 191 b.

Fixpoint utf8_decode (bs : list N) : option pystr :=
  match bs with
  | [] => Some []
  | b0 :: r0 =>
      if N.ltb b0 128 then option_map (cons b0) (utf8_decode r0)
      else if in_range 194 223 b0 then
        match r0 with
        | b1 :: r1 =>
            if is_cont b1 then
              option_map (cons ((b0 - 192) * 64 + (b1 - 128))%N)
                         (utf8_decode r1)
            else None
        | _ => None
        end
      else if in_range 224 239 b0 then
        match r0 with
        | b1 :: b2 :: r2 =>
            let c := ((b0 - 224) * 4096 + (b1 - 128) * 64 + (b2 - 128))%N in
            if (is_cont b1 && is_cont b2 && N.leb 2048 c
                && negb (in_range 55296 57343 c))%bool
            then option_map (cons c) (utf8_decode r2)
            else None
        | _ => None
        end
      else if in_range 240 244 b0 then
        match r0 with
        | b1 :: b2 :: b3 :: r3 =>
            let c := ((b0 - 240) * 262144 + (b1 - 128) * 4096
                      + (b2 - 128) * 64 + (b3 - 128))%N in
            if (is_cont b1 && is_cont b2 && is_cont b3
                && in_range 65536 1114111 c)%bool
            then option_map (cons c) (utf8_decode r3)
            else None
        | _ => None
        end
      else None
  end.

(** ['\r\n'] and ['\r'] are read as ['\n']. *)
Fixpoint universal_newlines (s : pystr) : pystr :=
  match s with
  | [] => []
  | c :: r =>
      if N.eqb c 13 then
        match r with
        | d :: r' =>
            if N.eqb d 10 then 10%N :: universal_newlines r'
            else 10%N :: universal_newlines r
        | [] => [10%N]
        end
      else c :: universal_newlines r
  end.

(* ------------------------------------------------------------------ *)
(** ** The world the script runs in, and its effects *)

Section Script.
Context {F : PyFloat}.

(** [int(now * 1000 - 1000)], line 75: the product, the difference and the
    conversion are those of floats. *)
Definition ms_one_second_before (now : float) : Z :=
  float_trunc (float_sub (float_mul now (float_of_int 1000))
                         (float_of_int 1000)).

(** [int(now * 1000)], line 86. *)
Definition ms_of (now : float) : Z :=
  float_trunc (float_mul now (float_of_int 1000)).

Record World := {
  (** [sys.argv[1:]] *)
  argv : list pystr;
  (** the decimal digits of the interpreter's Unicode database that are
      not ASCII *)
  wide_decimal : N -> bool;
  (** the bytes of the file at a path; [None] when [open] or [read] fails *)
  files : pystr -> option (list Byte.byte);
  (** the codec of the locale; [None] when the bytes do not decode *)
  locale_decode : list Byte.byte -> option pystr;
  (** [sys.int_max_str_digits] (0: no limit) *)
  int_max_str_digits : nat;
  (** the nested containers [json.loads] can enter at line 68, and
      [json.dumps] at line 86, before the recursion limit is reached *)
  loads_depth : nat;
  dumps_depth : nat;
  (** the value returned by the k-th call of [time.time()], in seconds *)
  clock : nat -> float;
  (** whether [boto3.session.Session] (with its keyword arguments) succeeds *)
  session_ok : option pystr -> bool;
  (** whether [session.client('logs')] succeeds *)
  client_ok : option pystr -> bool;
  (** whether the service accepts the request of [put_log_events] *)
  put_ok : pystr -> pystr -> list (pystr * Z) -> bool
}.

(** The decimal digits of the Unicode database: of the ASCII characters,
    [0] to [9]. *)
Definition unicode_decimal (w : World) (c : N) : bool :=
  (is_digit c || (N.ltb 127 c && wide_decimal w c))%bool.

(** What the process does to the outside, in order. *)
Inductive event :=
| EvOpen (path : pystr)
| EvSession (region_name : option pystr)
| EvClient (service : pystr)
| EvPutLogEvents (logGroupName logStreamName : pystr)
                 (logEvents : list (pystr * Z)).

Record state := {
  (** calls of [time.time()] so far *)
  ticks : nat;
  trace : list event
}.

(** Computations that read the clock, act on the outside and may raise. *)
Definition M (A : Type) : Type := state -> (exn + A) * state.

Definition ret {A} (a : A) : M A := fun st => (inr a, st).

Definition raise {A} (e : exn) : M A := fun st => (inl e, st).

Definition bind {A B} (c : M A) (k : A -> M B) : M B :=
  fun st =>
    match c st with
    | (inr a, st') => k a st'
    | (inl e, st') => (inl e, st')
    end.

Notation "x <- c ;; k" := (bind c (fun x => k))
  (at level 61, c at next level, right associativity).

Definition lift {A} (r : exn + A) : M A :=
  match r with inr a => ret a | inl e => raise e end.

Definition emit (ev : event) : M unit :=
  fun st => (inr tt, {| ticks := ticks st; trace := trace st ++ [ev] |}).

(** [time.time()] *)
Definition time_time (w : World) : M float :=
  fun st => (inr (clock w (ticks st)),
             {| ticks := S (ticks st); trace := trace st |}).

(** [for x in l: ...], collecting what the body leaves in place of [x]. *)
Fixpoint for_each {A B} (l : list A) (body : A -> M B) : M (list B) :=
  match l with
  | [] => ret []
  | x :: r =>
      y <- body x ;;
      ys <- for_each r body ;;
      ret (y :: ys)
  end.

(** [with open(path, 'r') as file: log = file.read()] *)
Definition read_text (w : World) (path : pystr) : exn + pystr :=
  match files w path with
  | None => inl OSError
  | Some bytes =>
      match locale_decode w bytes with
      | None => inl UnicodeDecodeError
      | Some text => inr (universal_newlines text)
      end
  end.

Definition open_read (w : World) (path : pystr) : M pystr :=
  _ <- emit (EvOpen path) ;;
  lift (read_text w path).

(** [json.loads(log)], line 68. *)
Definition loads (w : World) (text : pystr) : M pyval :=
  match json_loads (int_max_str_digits w) (loads_depth w) text with
  | Scanned v _ => ret v
  | Raised e => raise e
  | Exhausted => raise RecursionError
  end.

(** [json.dumps(m)], line 86. *)
Definition dumps (w : World) (m : pyval) : M pystr :=
  match encode_error (int_max_str_digits w) (dumps_depth w) m with
  | Some e => raise e
  | None => ret (json_dumps m)
  end.

(** [for e in levts]: the items of a list, the characters of a [str], the
    keys of a [dict]; nothing else can be iterated. *)
Definition iterate (v : pyval) : exn + list pyval :=
  match v with
  | PList l => inr l
  | PStr s => inr (List.map (fun c => PStr [c]) s)
  | PDict d => inr (List.map (fun kv => PStr (fst kv)) d)
  | _ => inl TypeError
  end.

(** What [e.get(k, default)] returns: the object stored in [e] under [k],
    which [e] keeps referring to, or the default object, which nothing
    else refers to. *)
Inductive place :=
| Stored (k : pystr)
| Detached (v : pyval).

Definition get_or_default (e : pyval) (k : pystr) (default : pyval)
  : exn + place :=
  match e with
  | PDict d =>
      match dict_get d k with
      | Some _ => inr (Stored k)
      | None => inr (Detached default)
      end
  | _ => inl AttributeError
  end.

(** [target[k] = v] with a [str] key: only a [dict] accepts it. *)
Definition setitem (target : pyval) (k : pystr) (v : pyval) : exn + pyval :=
  match target with
  | PDict d => inr (PDict (dict_set d k v))
  | _ => inl TypeError
  end.

(** [e.get('_aws', {})['Timestamp'] = ts]; the result is [e] after the
    statement.  A store into the object kept under ['_aws'] is seen through
    [e]; a store into the default object is not. *)
Definition store_timestamp (e : pyval) (ts : Z) : exn + pyval :=
  match get_or_default e (py "_aws") (PDict []) with
  | inl x => inl x
  | inr (Detached target) =>
      match setitem target (py "Timestamp") (PInt ts) with
      | inl x => inl x
      | inr _ => inr e
      end
  | inr (Stored k) =>
      match e with
      | PDict d =>
          match dict_get d k with
          | Some target =>
              match setitem target (py "Timestamp") (PInt ts) with
              | inl x => inl x
              | inr target' => inr (PDict (dict_set d k target'))
              end
          | None => inr e
          end
      | _ => inr e
      end
  end.

(** Lines 71-75: the right-hand side is evaluated first. *)
Definition normalize (w : World) (items : list pyval) : M (list pyval) :=
  for_each items (fun e =>
    now <- time_time w ;;
    lift (store_timestamp e (ms_one_second_before now))).

(** Lines 85-88: the list of events. *)
Definition log_events (w : World) (items : list pyval)
  : M (list (pystr * Z)) :=
  for_each items (fun m =>
    message <- dumps w m ;;
    now <- time_time w ;;
    ret (message, ms_of now)).

(** Lines 77-81. *)
Definition logs_client (w : World) (region_name : option pystr) : M unit :=
  _ <- emit (EvSession region_name) ;;
  if negb (session_ok w region_name) then raise BotoError
  else
    _ <- emit (EvClient (py "logs")) ;;
    if client_ok w region_name then ret tt else raise BotoError.

Definition put_log_events (w : World) (group stream : pystr)
  (events : list (pystr * Z)) : M unit :=
  _ <- emit (EvPutLogEvents group stream events) ;;
  if put_ok w group stream events then ret tt else raise BotoError.

(** Lines 68-75: from the file's text to the normalized records. *)
Definition load_records (w : World) (log : pystr) : M (list pyval) :=
  levts <- loads w log ;;
  let levts := match levts with PDict _ => PList [levts] | _ => levts end in
  items <- lift (iterate levts) ;;
  normalize w items.

Definition main (w : World) : M unit :=
  args <- lift (parse_args (unicode_decimal w) (argv w)) ;;
  log <- open_read w (file args) ;;
  levts <- load_records w log ;;
  _ <- logs_client w (region args) ;;
  events <- log_events w levts ;;
  put_log_events w (log_group args) (log_stream args) events.

(** Lines 62-81 of [main]: everything before the call of line 82. *)
Definition before_upload (w : World) : M (Args * list pyval) :=
  args <- lift (parse_args (unicode_decimal w) (argv w)) ;;
  log <- open_read w (file args) ;;
  levts <- load_records w log ;;
  _ <- logs_client w (region args) ;;
  ret (args, levts).

(** Lines 82-89: the events are built, then sent. *)
Definition upload (w : World) (args : Args) (levts : list pyval) : M unit :=
  events <- log_events w levts ;;
  put_log_events w (log_group args) (log_stream args) events.

Definition initial : state := {| ticks := O; trace := [] |}.

(** A run of the script: how [main] ends, and what it did. *)
Definition run (w : World) : (exn + unit) * list event :=
  let (r, st) := main w initial in (r, trace st).

(** The exit status of the process: an uncaught exception other than
    [SystemExit] gives 1. *)
Definition exit_status (r : exn + unit) : Z :=
  match r with
  | inr _ => 0
  | inl (SystemExit c) => c
  | inl _ => 1
  end.

End Script.

(* ------------------------------------------------------------------ *)
(** ** What the properties speak about *)

Section Observations.
Context {F : PyFloat}.

(** [e['_aws']['Timestamp']], when both lookups succeed. *)
Definition aws_timestamp (e : pyval) : option pyval :=
  match e with
  | PDict d =>
      match dict_get d (py "_aws") with
      | Some (PDict a) => dict_get a (py "Timestamp")
      | _ => None
      end
  | _ => None
  end.


(** The state of a run after line 67. *)
Definition opened (path : pystr) : state :=
  {| ticks := O; trace := [EvOpen path] |}.

(** The requests of [put_log_events] in a trace. *)
Definition put_requests (tr : list event)
  : list (pystr * pystr * list (pystr * Z)) :=
  flat_map (fun ev => match ev with
                      | EvPutLogEvents g s evs => [(g, s, evs)]
                      | _ => []
                      end) tr.

(** The same world with other files. *)
Definition with_files (w : World) (f : pystr -> option (list Byte.byte))
  : World :=
  {| argv := argv w; wide_decimal := wide_decimal w; files := f;
     locale_decode := locale_decode w;
     int_max_str_digits := int_max_str_digits w;
     loads_depth := loads_depth w; dumps_depth := dumps_depth w;
     clock := clock w;
     session_ok := session_ok w; client_ok := client_ok w;
     put_ok := put_ok w |}.

(** The same world with other recursion budgets. *)
Definition with_depths (w : World) (for_loads for_dumps : nat) : World :=
  {| argv := argv w; wide_decimal := wide_decimal w;
     files := files w; locale_decode := locale_decode w;
     int_max_str_digits := int_max_str_digits w;
     loads_depth := for_loads; dumps_depth := for_dumps;
     clock := clock w;
     session_ok := session_ok w; client_ok := client_ok w;
     put_ok := put_ok w |}.

(** The same world with another service. *)
Definition with_service (w : World)
  (accepts : pystr -> pystr -> list (pystr * Z) -> bool) : World :=
  {| argv := argv w; wide_decimal := wide_decimal w;
     files := files w; locale_decode := locale_decode w;
     int_max_str_digits := int_max_str_digits w;
     loads_depth := loads_depth w; dumps_depth := dumps_depth w;
     clock := clock w;
     session_ok := session_ok w; client_ok := client_ok w;
     put_ok := accepts |}.

(** A world with one file, a UTF-8 locale, the Arabic-Indic digits beside
    the ASCII ones, the default limit on integer digits, room for a
    thousand nested containers and a service that accepts everything. *)
Definition simple_world (args : list pystr) (path : pystr) (content : pystr)
  (time : nat -> float) : World :=
  {| argv := args;
     wide_decimal := in_range 1632 1641;
     files := fun p =>
       if str_eqb p path
       then Some (List.map (fun c => match Byte.of_N c with
                                     | Some b => b
                                     | None => Byte.x00
                                     end) content)
       else None;
     locale_decode := fun bytes => utf8_decode (List.map Byte.to_N bytes);
     int_max_str_digits := 4300;
     loads_depth := 1000; dumps_depth := 1000;
     clock := time;
     session_ok := fun _ => true; client_ok := fun _ => true;
     put_ok := fun _ _ _ => true |}.

(** The compact encoding of the [json] documentation: separators [','] and
    [':'], no whitespace between tokens. *)
Definition compact_json (v : pyval) : pystr := encode (py ",") (py ":") v.

(** A text of the JSON grammar (RFC 8259): the grammar of the decoder
    without the names [NaN], [Infinity] and [-Infinity], and without
    limits on nesting or on the digits of a number. *)
Definition valid_json (s : pystr) : bool :=
  match decode (fun _ => None) 0 (List.length s) s with
  | Scanned _ _ => true
  | _ => false
  end.





(** [json.dumps] returns on every item. *)
Definition serializable (w : World) (items : list pyval) : bool :=
  forallb (fun m =>
             match encode_error (int_max_str_digits w) (dumps_depth w) m with
             | None => true
             | Some _ => false
             end) items.

(** An item on which line 75 succeeds: a mapping whose ['_aws'] entry, if
    there is one, is a mapping. *)
Definition record_ok (e : pyval) : bool :=
  match e with
  | PDict d =>
      match dict_get d (py "_aws") with
      | None => true
      | Some (PDict _) => true
      | Some _ => false
      end
  | _ => false
  end.

(** Everything a run can do to the outside, in order, for given arguments
    and events. *)
Definition full_trace (args : Args) (evs : list (pystr * Z)) : list event :=
  [EvOpen (file args); EvSession (region args); EvClient (py "logs");
   EvPutLogEvents (log_group args) (log_stream args) evs].

(** The events of lines 85-88 when the clock has been read [k] times. *)
Fixpoint events_at (w : World) (k : nat) (items : list pyval)
  : list (pystr * Z) :=
  match items with
  | [] => []
  | m :: r => (json_dumps m, ms_of (clock w k)) :: events_at w (S k) r
  end.

End Observations.

(** ** What is assumed of the floats of the clock

    The order of floats is transitive, and reflexive on what is comparable
    (not a NaN); multiplying by 1000 keeps the order and subtracting 1000
    does not increase (both are rounded, and rounding keeps the order);
    [int] keeps the order of finite floats. *)

Record float_order_laws (F : PyFloat) : Prop := {
  le_trans :
    forall x y z, float_le x y -> float_le y z -> float_le x z;
  le_comparable :
    forall x y, float_le x y -> float_le x x;
  mul_1000_mono :
    forall x y, float_le x y ->
      float_le (float_mul x (float_of_int 1000))
               (float_mul y (float_of_int 1000));
  sub_1000_le :
    forall x, float_le x x -> float_le (float_sub x (float_of_int 1000)) x;
  trunc_mono :
    forall x y, float_kind_of x = FFinite -> float_kind_of y = FFinite ->
      float_le x y -> float_trunc x <= float_trunc y
}.

(** ** What is left of a text, and what the decoder raises *)


Definition decoder_error (e : exn) : Prop :=
  e = JSONDecodeError \/ e = RecursionError \/ e = ValueError.

(** A small model of the float interface, for concrete runs: the floats
    with an integral value, and the three special values. *)
Inductive whole_float := Whole (n : Z) | WNaN | WPosInf | WNegInf.

Definition whole_floats : PyFloat := {|
  float := whole_float;
  float_of_str := fun s =>
    match match_integer s with
    | Some (i, _) => Whole (int_of_str i)
    | None => Whole 0
    end;
  float_repr := fun f =>
    match f with
    | Whole n => int_repr n ++ py ".0"
    | _ => []
    end;
  float_kind_of := fun f =>
    match f with
    | Whole _ => FFinite
    | WNaN => FNaN
    | WPosInf => FPosInf
    | WNegInf => FNegInf
    end;
  NaN := WNaN; PosInf := WPosInf; NegInf := WNegInf;
  float_of_int := Whole;
  float_mul := fun x y =>
    match x, y with
    | Whole a, Whole b => Whole (a * b)
    | _, _ => WNaN
    end;
  float_sub := fun x y =>
    match x, y with
    | Whole a, Whole b => Whole (a - b)
    | _, _ => WNaN
    end;
  float_trunc := fun x => match x with Whole a => a | _ => 0 end;
  float_le := fun x y =>
    match x, y with
    | Whole a, Whole b => a <= b
    | _, _ => False
    end
|}.

(** ** The command line, read without the parser *)







(** ** Classified arguments *)






(** ** Sample inputs *)

(** JSON text written with an apostrophe for the double quote. *)
Definition js (s : string) : pystr :=
  List.map (fun c => if N.eqb c 39 then 34%N else c) (py s).

(** A clock that starts five seconds after the epoch and advances by one
    second per reading. *)
Definition sample_clock (k : nat) : @float whole_floats :=
  Whole (5 + Z.of_nat k).

Definition sample_argv : list pystr :=
  [py "file.json"; py "--log-group=G"; py "--log-stream=S"].

Definition sample_world (content : pystr) : @World whole_floats :=
  simple_world sample_argv (py "file.json") content sample_clock.

(** The same inputs, and a service that refuses every request. *)
Definition refusing_world (content : pystr) : @World whole_floats :=
  with_service (sample_world content) (fun _ _ _ => false).

Definition sample_args : Args :=
  {| file := py "file.json"; log_group := py "G"; log_stream := py "S";
     region := None |}.

(** The state of the sample runs at line 82 with [n] records. *)
Definition at_upload (n : nat) : state :=
  {| ticks := n;
     trace := [EvOpen (py "file.json"); EvSession None;
               EvClient (py "logs")] |}.

(** A record with the reserved key, and one without. *)
Definition emf_record : @pyval whole_floats :=
  PDict [(py "_aws", PDict [(py "Timestamp", PInt 1)]); (py "a", PInt 1)].

Definition bare_record : @pyval whole_floats :=
  PDict [(py "b", PInt 2)].

(** [emf_record] after a normalization at the first reading of
    [sample_clock]. *)
Definition stamped_record : @pyval whole_floats :=
  PDict [(py "_aws", PDict [(py "Timestamp", PInt 4000)]); (py "a", PInt 1)].

Definition two_records : pystr :=
  js "[{'_aws': {'Timestamp': 1}, 'a': 1}, {'b': 2}]".

(** [n] arrays, one inside the other. *)
Fixpoint nested_arrays (n : nat) : pystr :=
  match n with
  | O => []
  | S n => 91%N :: nested_arrays n ++ [93%N]
  end.

(** An object that holds 992 nested arrays: 993 containers. *)
Definition deep_object : pystr :=
  js "{'a': " ++ nested_arrays 992 ++ js "}".

(** The sample world in an interpreter that has room for 993 nested
    containers at line 68 and for 992 at line 86. *)
Definition tight_world (content : pystr) : @World whole_floats :=
  with_depths (sample_world content) 993 992.

(* ================================================================== *)
(** * Properties *)

Unset Implicit Arguments.

(** ** Strings and dictionaries *)

Lemma str_eqb_eq (a b : pystr) : str_eqb a b = true <-> a = b.
Proof.
  revert b; induction a as [|x a IH]; intros [|y b]; simpl;
    try (split; [discriminate | discriminate]); [tauto|].
  rewrite andb_true_iff, N.eqb_eq, IH.
  split; [intros [-> ->]; reflexivity | intros [= -> ->]; auto].
Qed.

Lemma str_eqb_refl (a : pystr) : str_eqb a a = true.
Proof. apply str_eqb_eq; reflexivity. Qed.

Lemma str_eqb_neq (a b : pystr) : str_eqb a b = false <-> a <> b.
Proof.
  rewrite <- str_eqb_eq. destruct (str_eqb a b); split; congruence.
Qed.

Section DictFacts.
Context {F : PyFloat}.

Lemma dict_get_set_same (d : dict) k v : dict_get (dict_set d k v) k = Some v.
Proof.
  induction d as [|[k' v'] d IH]; simpl.
  - now rewrite str_eqb_refl.
  - destruct (str_eqb k' k) eqn:E; simpl; rewrite E; auto.
Qed.

Lemma dict_get_set_other (d : dict) k k' v :
  k' <> k -> dict_get (dict_set d k v) k' = dict_get d k'.
Proof.
  intros Hne. induction d as [|[k0 v0] d IH]; simpl.
  - apply str_eqb_neq in Hne.
    destruct (str_eqb k k') eqn:E; auto.
    apply str_eqb_eq in E. subst. now rewrite str_eqb_refl in Hne.
  - destruct (str_eqb k0 k) eqn:E; simpl.
    + apply str_eqb_eq in E; subst k0.
      destruct (str_eqb k k') eqn:E'; auto.
      apply str_eqb_eq in E'. congruence.
    + now rewrite IH.
Qed.

Lemma keys_set_present (d : dict) k v :
  dict_get d k <> None -> keys (dict_set d k v) = keys d.
Proof.
  induction d as [|[k0 v0] d IH]; simpl; [congruence|].
  destruct (str_eqb k0 k) eqn:E; simpl; auto.
  intros H. f_equal. now apply IH.
Qed.

End DictFacts.

(** ** The loops of [main] *)

Section Loops.
Context {F : PyFloat}.
Variable w : World.

Lemma normalize_cons (e : pyval) (items : list pyval) (st : state) :
  normalize w (e :: items) st =
  let st1 := {| ticks := S (ticks st); trace := trace st |} in
  match store_timestamp e (ms_one_second_before (clock w (ticks st))) with
  | inl x => (inl x, st1)
  | inr e' =>
      match normalize w items st1 with
      | (inl x, st') => (inl x, st')
      | (inr l, st') => (inr (e' :: l), st')
      end
  end.
Proof.
  unfold normalize. simpl. unfold bind at 1. unfold bind at 1.
  unfold time_time at 1. simpl.
  destruct (store_timestamp e _) as [x|e']; simpl; [reflexivity|].
  unfold bind at 1.
  match goal with |- context [for_each items ?b ?s] =>
    destruct (for_each items b s) as [[x|l] st'] end; reflexivity.
Qed.

Lemma normalize_trace (items : list pyval) (st : state) :
  trace (snd (normalize w items st)) = trace st.
Proof.
  revert st. induction items as [|e items IH]; intros st; [reflexivity|].
  unfold normalize in *. simpl. unfold bind at 1. unfold bind at 1.
  unfold time_time at 1. simpl.
  destruct (store_timestamp e _) as [x|e']; simpl; [reflexivity|].
  unfold bind at 1.
  match goal with |- context [for_each items ?b ?s] =>
    specialize (IH s); destruct (for_each items b s) as [[x|l] st'] end;
    simpl in *; exact IH.
Qed.

(** A normalization that succeeds has stored one timestamp per item, read
    from consecutive ticks of the clock, and has done nothing else. *)
Lemma normalize_ok (items : list pyval) :
  forall st items' st',
    normalize w items st = (inr items', st') ->
    ticks st' = (ticks st + List.length items)%nat /\
    trace st' = trace st /\
    List.length items' = List.length items /\
    forall i e, nth_error items i = Some e ->
      exists e', nth_error items' i = Some e' /\
        store_timestamp e (ms_one_second_before (clock w (ticks st + i)))
        = inr e'.
Proof.
  induction items as [|e items IH]; intros st items' st' H.
  - inversion H; subst. simpl. repeat split; auto.
    intros [|i] e0 Hn; discriminate.
  - unfold normalize in H. simpl in H. unfold bind at 1 in H.
    unfold bind at 1 in H. unfold time_time at 1 in H. simpl in H.
    destruct (store_timestamp e _) as [x|e'] eqn:He; simpl in H;
      [discriminate|].
    unfold bind at 1 in H.
    match type of H with context [for_each items ?b ?s] =>
      destruct (for_each items b s) as [[x|l] st1] eqn:Hl end;
      [discriminate|].
    inversion H; subst; clear H.
    apply IH in Hl. simpl in Hl. destruct Hl as (Ht & Htr & Hlen & Hnth).
    repeat split; simpl; auto; try lia.
    intros [|i] e0 Hn; simpl in Hn.
    + inversion Hn; subst. exists e'. split; auto.
      now rewrite Nat.add_0_r.
    + destruct (Hnth _ _ Hn) as (e1 & H1 & H2).
      exists e1. split; auto.
      now replace (ticks st + S i)%nat with (S (ticks st) + i)%nat by lia.
Qed.

Lemma log_events_cons (m : pyval) (items : list pyval) (st : state) :
  log_events w (m :: items) st =
  match encode_error (int_max_str_digits w) (dumps_depth w) m with
  | Some e => (inl e, st)
  | None =>
      match log_events w items
              {| ticks := S (ticks st); trace := trace st |} with
      | (inl x, st') => (inl x, st')
      | (inr l, st') =>
          (inr ((json_dumps m, ms_of (clock w (ticks st))) :: l), st')
      end
  end.
Proof.
  unfold log_events. simpl. unfold bind at 1. unfold bind at 1.
  unfold dumps at 1.
  destruct (encode_error _ _ m) as [e|]; [reflexivity|].
  unfold ret at 1. unfold bind at 1. unfold time_time at 1. simpl.
  unfold bind at 1.
  match goal with |- context [for_each items ?b ?s] =>
    destruct (for_each items b s) as [[x|l] st'] end; reflexivity.
Qed.

(** When [json.dumps] returns on every record, the events are built from
    consecutive readings of the clock. *)
Lemma log_events_ok (items : list pyval) (st : state) :
  serializable w items = true ->
  log_events w items st =
  (inr (events_at w (ticks st) items),
   {| ticks := ticks st + List.length items; trace := trace st |}).
Proof.
  revert st. induction items as [|m items IH]; intros st Hs.
  - unfold log_events. simpl. unfold ret. destruct st; simpl.
    now rewrite Nat.add_0_r.
  - rewrite log_events_cons. simpl in Hs.
    destruct (encode_error _ _ m) as [e|]; [discriminate|].
    simpl in Hs. rewrite (IH _ Hs). simpl. repeat f_equal. lia.
Qed.

(** When it raises on some record, no list of events is built. *)
Lemma log_events_fail (items : list pyval) (st : state) :
  serializable w items = false ->
  exists e st',
    log_events w items st = (inl e, st') /\ trace st' = trace st /\
    (e = RecursionError \/ e = ValueError).
Proof.
  revert st. induction items as [|m items IH]; intros st Hs;
    [discriminate|].
  rewrite log_events_cons. simpl in Hs.
  destruct (encode_error _ _ m) as [e|] eqn:He.
  - exists e, st. repeat split.
    clear Hs IH. revert He.
    generalize (dumps_depth w). clear.
    intros n H. revert m n e H.
    fix IHm 1. intros m n e.
    destruct m as [| b | z | f | s | l | d]; simpl; try discriminate.
    + destruct (exceeds_digits _ _); [intros [= <-]; auto | discriminate].
    + destruct n as [|n]; [intros [= <-]; auto|].
      induction l as [|x l IHl]; simpl; [discriminate|].
      destruct (encode_error (int_max_str_digits w) n x) as [e'|] eqn:Ex.
      * intros [= <-]. exact (IHm x n e' Ex).
      * exact IHl.
    + destruct n as [|n]; [intros [= <-]; auto|].
      induction d as [|[k x] d IHd]; simpl; [discriminate|].
      destruct (encode_error (int_max_str_digits w) n x) as [e'|] eqn:Ex.
      * intros [= <-]. exact (IHm x n e' Ex).
      * exact IHd.
  - simpl in Hs.
    destruct (IH {| ticks := S (ticks st); trace := trace st |} Hs)
      as (e & st' & -> & Ht & Hx).
    exists e, st'. auto.
Qed.

Lemma log_events_inv (items : list pyval) (st st' : state)
  (evs : list (pystr * Z)) :
  log_events w items st = (inr evs, st') ->
  serializable w items = true /\ evs = events_at w (ticks st) items.
Proof.
  intros H. destruct (serializable w items) eqn:Hs.
  - rewrite (log_events_ok items st Hs) in H. now inversion H.
  - destruct (log_events_fail items st Hs) as (e & st1 & H1 & _).
    congruence.
Qed.

Lemma events_at_length k (items : list pyval) :
  List.length (events_at w k items) = List.length items.
Proof. revert k; induction items; simpl; auto. Qed.

Lemma events_at_nth (items : list pyval) :
  forall k i m, nth_error items i = Some m ->
    nth_error (events_at w k items) i
    = Some (json_dumps m, ms_of (clock w (k + i))).
Proof.
  induction items as [|x items IH]; intros k [|i] m H; simpl in *;
    try discriminate.
  - inversion H; subst. now rewrite Nat.add_0_r.
  - rewrite (IH (S k) i m H).
    now replace (k + S i)%nat with (S k + i)%nat by lia.
Qed.

End Loops.

(** ** The stages of a run *)

Section Stages.
Context {F : PyFloat}.
Variable w : World.

Lemma main_split (st : state) :
  main w st = bind (before_upload w) (fun p => upload w (fst p) (snd p)) st.
Proof.
  unfold main, before_upload, upload, bind.
  destruct (lift (parse_args (unicode_decimal w) (argv w)) st)
    as [[e|args] st0]; auto.
  destruct (open_read w (file args) st0) as [[e|log] st1]; auto.
  destruct (load_records w log st1) as [[e|levts] st2]; auto.
  destruct (logs_client w (region args) st2) as [[e|u] st3]; auto.
Qed.

Lemma load_records_trace (log : pystr) (st : state) :
  trace (snd (load_records w log st)) = trace st.
Proof.
  unfold load_records, bind, loads.
  destruct (json_loads _ _ log) as [v r| e |]; simpl; auto.
  destruct (iterate _) as [e|items]; simpl; auto.
  apply normalize_trace.
Qed.

(** The stages before the upload, one after the other. *)
Lemma before_upload_eq :
  before_upload w initial =
  match parse_args (unicode_decimal w) (argv w) with
  | inl e => (inl e, initial)
  | inr args =>
      match read_text w (file args) with
      | inl e => (inl e, opened (file args))
      | inr log =>
          match load_records w log (opened (file args)) with
          | (inl e, st) => (inl e, st)
          | (inr levts, st) =>
              if negb (session_ok w (region args)) then
                (inl BotoError,
                 {| ticks := ticks st;
                    trace := trace st ++ [EvSession (region args)] |})
              else
                let st' :=
                  {| ticks := ticks st;
                     trace := (trace st ++ [EvSession (region args)])
                              ++ [EvClient (py "logs")] |} in
                if client_ok w (region args) then (inr (args, levts), st')
                else (inl BotoError, st')
          end
      end
  end.
Proof.
  unfold before_upload, bind. unfold lift at 1.
  destruct (parse_args (unicode_decimal w) (argv w)) as [e|args];
    [reflexivity|].
  unfold ret at 1. unfold open_read, bind, emit, lift. simpl.
  destruct (read_text w (file args)) as [e|log]; [reflexivity|].
  unfold ret at 1. fold (opened (file args)).
  destruct (load_records w log (opened (file args))) as [[e|levts] st];
    [reflexivity|].
  unfold logs_client, bind, emit. simpl.
  destruct (session_ok w (region args)); simpl; [|reflexivity].
  destruct (client_ok w (region args)); reflexivity.
Qed.

Lemma load_records_ok (log : pystr) (st : state) levts st' :
  load_records w log st = (inr levts, st') ->
  exists v r items,
    json_loads (int_max_str_digits w) (loads_depth w) log = Scanned v r /\
    iterate (match v with PDict _ => PList [v] | _ => v end) = inr items /\
    normalize w items st = (inr levts, st').
Proof.
  unfold load_records, bind, loads.
  destruct (json_loads _ _ log) as [v r| e |]; simpl; try discriminate.
  destruct (iterate _) as [e|items] eqn:Hi; simpl; try discriminate.
  intros H. exists v, r, items. auto.
Qed.

Lemma before_upload_trace r st :
  before_upload w initial = (r, st) -> put_requests (trace st) = [].
Proof.
  rewrite before_upload_eq.
  destruct (parse_args (unicode_decimal w) (argv w)) as [e|args].
  { intros [= <- <-]; reflexivity. }
  destruct (read_text w (file args)) as [e|log].
  { intros [= <- <-]; reflexivity. }
  pose proof (load_records_trace log (opened (file args))) as Ht.
  destruct (load_records w log (opened (file args))) as [[e|levts] st1];
    simpl in Ht.
  { intros [= <- <-]. now rewrite Ht. }
  destruct (session_ok w (region args)); simpl;
    [destruct (client_ok w (region args))|];
    intros [= <- <-]; simpl; rewrite Ht; reflexivity.
Qed.

(** A run that fails before line 82 ends there. *)
Lemma run_stopped e st :
  before_upload w initial = (inl e, st) -> run w = (inl e, trace st).
Proof.
  intros H. unfold run. rewrite main_split. unfold bind. now rewrite H.
Qed.

(** A run that reaches line 82 with records that [json.dumps] can write
    builds the events and sends one request. *)
Lemma run_uploading args levts st :
  before_upload w initial = (inr (args, levts), st) ->
  serializable w levts = true ->
  run w =
  (if put_ok w (log_group args) (log_stream args)
        (events_at w (ticks st) levts)
   then inr tt else inl BotoError,
   trace st ++ [EvPutLogEvents (log_group args) (log_stream args)
                               (events_at w (ticks st) levts)]).
Proof.
  intros H Hs. unfold run. rewrite main_split. unfold bind at 1. rewrite H.
  simpl. unfold upload, bind. rewrite (log_events_ok w levts st Hs).
  unfold put_log_events, bind, emit. simpl.
  destruct (put_ok w _ _ _); reflexivity.
Qed.

(** A run that reaches line 82 with a record on which [json.dumps] raises
    ends there, and sends nothing. *)
Lemma run_unserializable args levts st :
  before_upload w initial = (inr (args, levts), st) ->
  serializable w levts = false ->
  exists e, run w = (inl e, trace st) /\
            (e = RecursionError \/ e = ValueError).
Proof.
  intros H Hs. unfold run. rewrite main_split. unfold bind at 1. rewrite H.
  simpl. unfold upload, bind.
  destruct (log_events_fail w levts st Hs) as (e & st' & -> & Ht & He).
  exists e. now rewrite Ht.
Qed.

Lemma put_requests_app (a b : list event) :
  put_requests (a ++ b) = put_requests a ++ put_requests b.
Proof. unfold put_requests. now rewrite flat_map_app. Qed.

End Stages.

(** ** Normalization of one record *)

Section Normalization.
Context {F : PyFloat}.

Lemma store_timestamp_absent (d : dict) (ts : Z) :
  dict_get d (py "_aws") = None ->
  store_timestamp (PDict d) ts = inr (PDict d).
Proof.
  intros H. unfold store_timestamp, get_or_default. now rewrite H.
Qed.

Lemma store_timestamp_present (d a : dict) (ts : Z) :
  dict_get d (py "_aws") = Some (PDict a) ->
  store_timestamp (PDict d) ts
  = inr (PDict (dict_set d (py "_aws")
                  (PDict (dict_set a (py "Timestamp") (PInt ts))))).
Proof.
  intros H. unfold store_timestamp, get_or_default. now rewrite H, H.
Qed.

(** A record on which the statement of line 75 succeeds is a mapping, and
    its ['_aws'] entry, if any, is a mapping. *)
Lemma store_timestamp_inv (e e' : pyval) (ts : Z) :
  store_timestamp e ts = inr e' ->
  exists d, e = PDict d /\
    (dict_get d (py "_aws") = None \/
     exists a, dict_get d (py "_aws") = Some (PDict a)).
Proof.
  unfold store_timestamp, get_or_default.
  destruct e; try discriminate.
  destruct (dict_get d (py "_aws")) as [v|] eqn:E.
  - rewrite E. destruct v; try discriminate.
    intros _. exists d. split; eauto.
  - intros _. exists d. split; auto.
Qed.

Lemma aws_timestamp_stored (e e' : pyval) (ts : Z) (v : pyval) :
  store_timestamp e ts = inr e' ->
  aws_timestamp e' = Some v ->
  v = PInt ts.
Proof.
  intros H Hv.
  destruct (store_timestamp_inv _ _ _ H) as (d & -> & [Hn | (a & Ha)]).
  - rewrite (store_timestamp_absent _ _ Hn) in H. inversion H; subst.
    unfold aws_timestamp in Hv. now rewrite Hn in Hv.
  - rewrite (store_timestamp_present _ _ _ Ha) in H. inversion H; subst.
    unfold aws_timestamp in Hv. rewrite dict_get_set_same in Hv.
    rewrite dict_get_set_same in Hv. congruence.
Qed.

End Normalization.

(** ** The timestamp written by normalization *)

Section TimestampClaims.
Context {F : PyFloat}.
Variable w : World.

(** C1 (amended): for every record of the sequence whose ['_aws'] key is
    present, normalization leaves in the record's ['_aws'] mapping a
    ['Timestamp'] equal to [int(T * 1000 - 1000)], where [T] is the reading
    of the clock taken for that record (the i-th record takes the i-th
    reading after the start of the loop). *)
Theorem normalize_sets_aws_timestamp
  (items items' : list pyval) (st st' : state) :
  normalize w items st = (inr items', st') ->
  forall i d,
    nth_error items i = Some (PDict d) ->
    dict_get d (py "_aws") <> None ->
    exists e',
      nth_error items' i = Some e' /\
      aws_timestamp e'
      = Some (PInt (ms_one_second_before (clock w (ticks st + i)))).
Proof.
  intros H i d Hi Haws.
  destruct (normalize_ok _ _ _ _ _ H) as (_ & _ & _ & Hnth).
  destruct (Hnth _ _ Hi) as (e' & He' & Hs).
  exists e'. split; auto.
  destruct (store_timestamp_inv _ _ _ Hs) as (d0 & [= <-] & [Hn | (a & Ha)]);
    [congruence|].
  rewrite (store_timestamp_present _ _ _ Ha) in Hs. inversion Hs; subst.
  unfold aws_timestamp. now rewrite !dict_get_set_same.
Qed.

(** C2: a record without the ['_aws'] key comes out of normalization
    unchanged (the default mapping that received the write is attached to
    nothing), and the message built for it, in the list of events of
    lines 85-88, is the serialization of that unchanged record, which has
    no ['_aws'] entry. *)
Theorem record_without_aws_unchanged
  (items items' : list pyval) (st st' : state) (i : nat) (d : dict) :
  normalize w items st = (inr items', st') ->
  nth_error items i = Some (PDict d) ->
  dict_get d (py "_aws") = None ->
  nth_error items' i = Some (PDict d) /\
  aws_timestamp (PDict d) = None /\
  (forall k, exists ts,
     nth_error (events_at w k items') i = Some (json_dumps (PDict d), ts)) /\
  (forall st1 evs st2,
     log_events w items' st1 = (inr evs, st2) ->
     exists ts, nth_error evs i = Some (json_dumps (PDict d), ts)).
Proof.
  intros H Hi Hn.
  destruct (normalize_ok _ _ _ _ _ H) as (_ & _ & _ & Hnth).
  destruct (Hnth _ _ Hi) as (e' & He' & Hs).
  rewrite (store_timestamp_absent _ _ Hn) in Hs. inversion Hs; subst e'.
  split; [exact He'|]. split; [|split].
  - unfold aws_timestamp. now rewrite Hn.
  - intros k. eexists. now apply events_at_nth.
  - intros st1 evs st2 Hl.
    destruct (log_events_inv _ _ _ _ _ Hl) as [_ ->].
    eexists. now apply events_at_nth.
Qed.

End TimestampClaims.

Section FrameClaim.
Context {F : PyFloat}.

(** C9: on a record whose ['_aws'] key maps to a mapping, the statement of
    line 75 succeeds and changes only the ['Timestamp'] entry of that
    mapping: the other top-level entries, the other entries of ['_aws'] and
    the order of the top-level keys stay as they were. *)
Theorem store_timestamp_frame (d a : dict) (ts : Z) :
  dict_get d (py "_aws") = Some (PDict a) ->
  exists d' a',
    store_timestamp (PDict d) ts = inr (PDict d') /\
    dict_get d' (py "_aws") = Some (PDict a') /\
    dict_get a' (py "Timestamp") = Some (PInt ts) /\
    (forall k, k <> py "_aws" -> dict_get d' k = dict_get d k) /\
    (forall k, k <> py "Timestamp" -> dict_get a' k = dict_get a k) /\
    keys d' = keys d.
Proof.
  intros Ha.
  exists (dict_set d (py "_aws")
            (PDict (dict_set a (py "Timestamp") (PInt ts)))),
         (dict_set a (py "Timestamp") (PInt ts)).
  split; [now apply store_timestamp_present|].
  split; [apply dict_get_set_same|].
  split; [apply dict_get_set_same|].
  split; [intros k Hk; now apply dict_get_set_other|].
  split; [intros k Hk; now apply dict_get_set_other|].
  apply keys_set_present. congruence.
Qed.

End FrameClaim.

(** C1 as stated fails on a record without the ['_aws'] key: the file
    [[{"b": 2}]] is loaded and normalized without error, and its record has
    no ['_aws'] timestamp afterwards. *)
Lemma record_without_aws_has_no_timestamp :
  let w := sample_world (js "[{'b': 2}]") in
  exists e' st',
    load_records (F := whole_floats) w (js "[{'b': 2}]")
      (opened (py "file.json"))
    = (inr [e'], st') /\
    aws_timestamp e' = None /\
    aws_timestamp e' <> Some (PInt (ms_one_second_before (clock w 0))).
Proof.
  simpl. exists bare_record,
    {| ticks := 1; trace := [EvOpen (py "file.json")] |}.
  split; [reflexivity|].
  split; [reflexivity | discriminate].
Qed.

Lemma normalize_sets_aws_timestamp_witness :
  let w := sample_world (js "[{'_aws': {'Timestamp': 1}, 'a': 1}]") in
  let st' := {| ticks := 1; trace := [] |} in
  let e' := PDict [(py "_aws", PDict [(py "Timestamp", PInt 4000)]);
                   (py "a", PInt 1)] in
  normalize w [emf_record] initial = (inr [e'], st') /\
  exists e'',
    nth_error [e'] 0 = Some e'' /\
    aws_timestamp e'' = Some (PInt (ms_one_second_before (clock w 0))).
Proof.
  intros w st' e'.
  assert (H : normalize w [emf_record] initial = (inr [e'], st'))
    by reflexivity.
  split; [exact H|].
  apply (normalize_sets_aws_timestamp (F := whole_floats) w [emf_record]
           [e'] initial st' H 0
           [(py "_aws", PDict [(py "Timestamp", PInt 1)]); (py "a", PInt 1)]).
  - reflexivity.
  - discriminate.
Defined.

Lemma record_without_aws_unchanged_witness :
  let w := sample_world (js "[{'b': 2}]") in
  let st' := {| ticks := 1; trace := [] |} in
  normalize w [bare_record] initial = (inr [bare_record], st') /\
  nth_error [bare_record] 0 = Some bare_record /\
  aws_timestamp bare_record = None /\
  (forall k, exists ts,
     nth_error (events_at w k [bare_record]) 0
     = Some (json_dumps bare_record, ts)) /\
  (forall st1 evs st2,
     log_events w [bare_record] st1 = (inr evs, st2) ->
     exists ts, nth_error evs 0 = Some (json_dumps bare_record, ts)).
Proof.
  intros w st'.
  assert (H : normalize w [bare_record] initial = (inr [bare_record], st'))
    by reflexivity.
  split; [exact H|].
  apply (record_without_aws_unchanged (F := whole_floats) w [bare_record]
           [bare_record] initial st' 0 [(py "b", PInt 2)] H); reflexivity.
Defined.

Lemma store_timestamp_frame_witness :
  dict_get [(py "_aws", PDict [(py "Timestamp", @PInt whole_floats 1)]);
            (py "a", PInt 1)] (py "_aws")
  = Some (PDict [(py "Timestamp", PInt 1)]) /\
  exists d' a',
    store_timestamp emf_record 4000 = inr (PDict d') /\
    dict_get d' (py "_aws") = Some (PDict a') /\
    dict_get a' (py "Timestamp") = Some (PInt 4000) /\
    (forall k, k <> py "_aws" ->
       dict_get d' k
       = dict_get [(py "_aws", PDict [(py "Timestamp", PInt 1)]);
                   (py "a", PInt 1)] k) /\
    (forall k, k <> py "Timestamp" ->
       dict_get a' k = dict_get [(py "Timestamp", PInt 1)] k) /\
    keys d' = [py "_aws"; py "a"].
Proof.
  split; [reflexivity|].
  apply (@store_timestamp_frame whole_floats
           [(py "_aws", PDict [(py "Timestamp", PInt 1)]); (py "a", PInt 1)]
           [(py "Timestamp", PInt 1)] 4000).
  reflexivity.
Defined.

(** ** The scanner consumes its input and never runs out of fuel *)

Local Abbreviation len := (@List.length N).

Lemma skip_ws_le (s : pystr) : (len (skip_ws s) <= len s)%nat.
Proof.
  induction s as [|c s IH]; simpl; auto.
  destruct (is_ws c); simpl; lia.
Qed.

Lemma skip_ws_cons_lt (s : pystr) c r :
  skip_ws s = c :: r -> (len r < len s)%nat.
Proof.
  intros H. pose proof (skip_ws_le s) as Hl. rewrite H in Hl. simpl in Hl. lia.
Qed.

Lemma prepend_consumes (c : N) (o : option (pystr * pystr)) t r (k : nat) :
  option_map (prepend c) o = Some (t, r) ->
  (forall t' r', o = Some (t', r') -> (len r' < k)%nat) ->
  (len r < k)%nat.
Proof.
  destruct o as [[t' r']|]; simpl; [|discriminate].
  unfold prepend. simpl. intros [= <- <-] H. now apply (H t' r').
Qed.

Lemma scanstring_consumes_upto (n : nat) :
  forall s t r, (len s <= n)%nat ->
    scanstring s = Some (t, r) -> (len r < len s)%nat.
Proof.
  induction n as [|n IH]; intros s t r Hn.
  - destruct s; [discriminate | simpl in Hn; lia].
  - destruct s as [|c s]; [discriminate|]. simpl in Hn. simpl.
    assert (Hrec : forall c' s',
              option_map (prepend c') (scanstring s') = Some (t, r) ->
              (len s' <= n)%nat -> (len r < len s')%nat).
    { intros c' s' Ho Hs'.
      apply (prepend_consumes _ _ _ _ _ Ho). intros t' r'. now apply IH. }
    destruct (N.eqb c 34); [intros [= <- <-]; lia|].
    destruct (N.eqb c 92).
    + destruct s as [|e r1]; [discriminate|].
      destruct (N.eqb e 117).
      * destruct r1 as [|a [|b [|c1 [|d r2]]]]; try discriminate.
        destruct (hex4 a b c1 d) as [uni|]; [|discriminate].
        simpl in Hn.
        assert (Hsingle : option_map (prepend uni) (scanstring r2)
                          = Some (t, r) ->
                          (len r < S (S (S (S (S (S (len r2)))))))%nat).
        { intros H. apply Hrec in H; lia. }
        cbv zeta.
        destruct (is_high_surrogate uni); [|exact Hsingle].
        destruct r2 as [|x [|y [|a' [|b' [|c' [|d' r3]]]]]];
          try exact Hsingle.
        destruct (N.eqb x 92 && N.eqb y 117)%bool; [|exact Hsingle].
        destruct (hex4 a' b' c' d') as [lo|]; [|discriminate].
        destruct (is_low_surrogate lo); [|exact Hsingle].
        intros H. simpl in Hn. apply Hrec in H; simpl; lia.
      * destruct (backslash e); [|discriminate].
        intros H. simpl in Hn. apply Hrec in H; simpl; lia.
    + destruct (N.ltb c 32); [discriminate|].
      intros H. apply Hrec in H; simpl; lia.
Qed.

Lemma scanstring_consumes (s t r : pystr) :
  scanstring s = Some (t, r) -> (len r < len s)%nat.
Proof. apply (scanstring_consumes_upto (len s)). lia. Qed.

Lemma span_digits_app (s : pystr) :
  s = fst (span_digits s) ++ snd (span_digits s).
Proof.
  induction s as [|c s IH]; simpl; auto.
  destruct (is_digit c); auto.
  destruct (span_digits s) as [ds r]. simpl in *. now f_equal.
Qed.

Lemma match_integer_app (s i r : pystr) :
  match_integer s = Some (i, r) -> s = i ++ r /\ i <> [].
Proof.
  assert (Hbody : forall s1 i1 r1,
    match s1 with
    | c :: r0 =>
        if N.eqb c 48 then Some ([c], r0)
        else if in_range 49 57 c then
          let (ds, r') := span_digits r0 in Some (c :: ds, r')
        else None
    | [] => None
    end = Some (i1, r1) -> s1 = i1 ++ r1 /\ i1 <> []).
  { intros [|c r0] i1 r1; [discriminate|].
    destruct (N.eqb c 48); [intros [= <- <-]; split; [reflexivity|discriminate]|].
    destruct (in_range 49 57 c); [|discriminate].
    pose proof (span_digits_app r0) as Hs.
    destruct (span_digits r0) as [ds r']. simpl in Hs.
    intros [= <- <-]. split; [simpl; now f_equal | discriminate]. }
  unfold match_integer.
  destruct s as [|c s']; [discriminate|].
  destruct (N.eqb_spec c 45) as [->|Hne].
  - match goal with |- context [match ?b with Some _ => _ | None => _ end] =>
      destruct b as [[ds r0]|] eqn:E end; [|discriminate].
    apply Hbody in E. destruct E as [-> _].
    intros [= <- <-]. split; [reflexivity | discriminate].
  - intros H. apply Hbody.
    destruct c as [|p]; [exact H|].
    repeat (destruct p as [p|p|]; try exact H). congruence.
Qed.

Lemma match_frac_app (s : pystr) : s = fst (match_frac s) ++ snd (match_frac s).
Proof.
  unfold match_frac.
  destruct s as [|c0 [|c r]]; try reflexivity.
  - destruct c0 as [|p]; try reflexivity.
    repeat (destruct p as [p|p|]; try reflexivity).
  - assert (H : (let (f, r1) := if is_digit c
                   then let (ds, r') := span_digits r in
                        (c0 :: c :: ds, r')
                   else ([], c0 :: c :: r) in c0 :: c :: r = f ++ r1)).
    { destruct (is_digit c); [|reflexivity].
      pose proof (span_digits_app r) as Hs.
      destruct (span_digits r) as [ds r']. simpl in *. now do 2 f_equal. }
    destruct c0 as [|p]; try reflexivity.
    repeat (destruct p as [p|p|]; try reflexivity).
    destruct (is_digit c); [|reflexivity].
    destruct (span_digits r) as [ds r']. exact H.
Qed.

Lemma match_exp_app (s : pystr) : s = fst (match_exp s) ++ snd (match_exp s).
Proof.
  unfold match_exp.
  destruct s as [|e r]; [reflexivity|].
  destruct (N.eqb e 101 || N.eqb e 69)%bool; [|reflexivity].
  destruct r as [|sg [|c r1]]; [reflexivity | |].
  - destruct (is_digit sg); reflexivity.
  - destruct ((N.eqb sg 45 || N.eqb sg 43) && is_digit c)%bool.
    + pose proof (span_digits_app r1) as Hs.
      destruct (span_digits r1) as [ds r']. simpl in *. now do 3 f_equal.
    + destruct (is_digit sg); [|reflexivity].
      pose proof (span_digits_app (c :: r1)) as Hs.
      destruct (span_digits (c :: r1)) as [ds r']. simpl in *.
      now do 2 f_equal.
Qed.

(** ** What is left of a text is a suffix of it *)






Lemma strip_prefix_app (p s r : pystr) :
  strip_prefix p s = Some r -> s = p ++ r.
Proof.
  revert s. induction p as [|c p IH]; intros s; simpl.
  - now intros [= ->].
  - destruct s as [|d s]; [discriminate|].
    destruct (N.eqb_spec c d) as [->|]; [|discriminate].
    intros H. now rewrite (IH _ H).
Qed.





Lemma number_groups_app (s i f e r : pystr) :
  number_groups s = Some (i, f, e, r) -> s = i ++ f ++ e ++ r /\ i <> [].
Proof.
  unfold number_groups.
  destruct (match_integer s) as [[i0 r0]|] eqn:Ei; [|discriminate].
  apply match_integer_app in Ei. destruct Ei as [-> Hi].
  pose proof (match_frac_app r0) as Hf.
  destruct (match_frac r0) as [f0 r1]. simpl in Hf.
  pose proof (match_exp_app r1) as He.
  destruct (match_exp r1) as [e0 r2]. simpl in He.
  intros [= <- <- <- <-]. split; [congruence | exact Hi].
Qed.

Section ScannerFacts.
Context {F : PyFloat}.
Variable parse_constant : pystr -> option float.
Variable max_digits : nat.

Lemma scan_number_app (s : pystr) (v : pyval) (r : pystr) :
  scan_number max_digits s = Some (Scanned v r) ->
  exists p, p <> [] /\ s = p ++ r.
Proof.
  unfold scan_number.
  destruct (number_groups s) as [[[[i f] e] r0]|] eqn:E; [|discriminate].
  apply number_groups_app in E. destruct E as [-> Hi].
  intros H. assert (r = r0) as ->.
  { destruct f, e; try (now inversion H).
    destruct (exceeds_digits _ _); now inversion H. }
  exists (i ++ f ++ e). split.
  - destruct i; [congruence | discriminate].
  - now rewrite <- !app_assoc.
Qed.

Lemma scan_number_not_exhausted (s : pystr) :
  scan_number max_digits s <> Some Exhausted.
Proof.
  unfold scan_number.
  destruct (number_groups s) as [[[[i f] e] r0]|]; [|discriminate].
  destruct f, e; try discriminate.
  destruct (exceeds_digits _ _); discriminate.
Qed.

Lemma scan_atom_app (s : pystr) (v : pyval) (r : pystr) :
  scan_atom parse_constant max_digits s = Scanned v r ->
  exists p, p <> [] /\ s = p ++ r.
Proof.
  unfold scan_atom, scan_constant.
  repeat match goal with
  | |- context [strip_prefix ?p s] =>
      let E := fresh "E" in
      destruct (strip_prefix p s) eqn:E;
      [apply strip_prefix_app in E |]
  | |- context [scan_number max_digits s] =>
      let E := fresh "E" in
      destruct (scan_number max_digits s) as [[? ?| |]|] eqn:E;
      [apply scan_number_app in E | | |]
  | |- context [parse_constant ?n] => destruct (parse_constant n)
  end; try discriminate; intros [= <- <-];
    first [ eassumption
          | eexists; split; [|eassumption]; discriminate ].
Qed.

Lemma scan_atom_consumes (s : pystr) (v : pyval) (r : pystr) :
  scan_atom parse_constant max_digits s = Scanned v r -> (len r < len s)%nat.
Proof.
  intros H. apply scan_atom_app in H. destruct H as (p & Hp & ->).
  rewrite length_app. destruct p; [congruence | simpl; lia].
Qed.


Lemma scan_atom_not_exhausted (s : pystr) :
  scan_atom parse_constant max_digits s <> Exhausted.
Proof.
  unfold scan_atom, scan_constant.
  pose proof (scan_number_not_exhausted s) as Hn.
  repeat match goal with
  | |- context [strip_prefix ?p s] => destruct (strip_prefix p s)
  | |- context [scan_number max_digits s] =>
      destruct (scan_number max_digits s) as [[? ?| |]|]
  | |- context [parse_constant ?n] => destruct (parse_constant n)
  end; congruence.
Qed.

End ScannerFacts.

Section ScannerFuel.
Context {F : PyFloat}.
Variable parse_constant : pystr -> option float.
Variable max_digits : nat.

Local Abbreviation scan1 := (scan_once parse_constant max_digits).
Local Abbreviation scanO := (JSONObject parse_constant max_digits).
Local Abbreviation scanA := (JSONArray parse_constant max_digits).

Local Ltac break_scan :=
  match goal with
  | |- context [match scanstring ?s with _ => _ end] =>
      destruct (scanstring s) as [[? ?]|] eqn:?
  | |- context [match skip_ws ?s with _ => _ end] =>
      destruct (skip_ws s) eqn:?
  | |- context [match scan_once ?pc ?md ?d ?n ?s with _ => _ end] =>
      destruct (scan_once pc md d n s) eqn:?
  | |- context [match JSONObject ?pc ?md ?d ?n ?s with _ => _ end] =>
      destruct (JSONObject pc md d n s) eqn:?
  | |- context [match JSONArray ?pc ?md ?d ?n ?s with _ => _ end] =>
      destruct (JSONArray pc md d n s) eqn:?
  | |- context [if ?b then _ else _] => destruct b eqn:?
  | |- context [match ?d with O => _ | S _ => _ end] => destruct d
  end.

Local Ltac primitive_lengths :=
  repeat match goal with
  | H : scanstring _ = Some _ |- _ => apply scanstring_consumes in H
  | H : skip_ws _ = _ :: _ |- _ => apply skip_ws_cons_lt in H
  | H : scan_atom _ _ _ = Scanned _ _ |- _ => apply scan_atom_consumes in H
  end.

Local Ltac skip_ws_bounds :=
  repeat match goal with
  | H : context [skip_ws ?x] |- _ =>
      lazymatch goal with
      | _ : (len (skip_ws x) <= len x)%nat |- _ => fail
      | _ => pose proof (skip_ws_le x)
      end
  | |- context [skip_ws ?x] =>
      lazymatch goal with
      | _ : (len (skip_ws x) <= len x)%nat |- _ => fail
      | _ => pose proof (skip_ws_le x)
      end
  end.

(** Every scanner that succeeds has consumed at least one character. *)
Lemma scan_consumes (n : nat) :
  (forall d s v r, scan1 d n s = Scanned v r -> (len r < len s)%nat) /\
  (forall d s l r, scanO d n s = Scanned l r -> (len r < len s)%nat) /\
  (forall d s l r, scanA d n s = Scanned l r -> (len r < len s)%nat).
Proof.
  induction n as [|n (IH1 & IH2 & IH3)]; [repeat split; discriminate|].
  repeat split.
  - intros d s v r. simpl. destruct s as [|c s]; [discriminate|].
    repeat break_scan; try discriminate; intros H;
      try (injection H as <- <-);
      primitive_lengths;
      repeat match goal with
      | H : JSONObject _ _ _ n _ = Scanned _ _ |- _ => apply IH2 in H
      | H : JSONArray _ _ _ n _ = Scanned _ _ |- _ => apply IH3 in H
      end; simpl in *; lia.
  - intros d s l r. simpl.
    repeat break_scan; try discriminate; intros H;
      try (injection H as <- <-);
      primitive_lengths;
      repeat match goal with
      | H : scan_once _ _ _ n _ = Scanned _ _ |- _ => apply IH1 in H
      | H : JSONObject _ _ _ n _ = Scanned _ _ |- _ => apply IH2 in H
      end;
      skip_ws_bounds; simpl in *; lia.
  - intros d s l r. simpl.
    repeat break_scan; try discriminate; intros H;
      try (injection H as <- <-);
      primitive_lengths;
      repeat match goal with
      | H : scan_once _ _ _ n _ = Scanned _ _ |- _ => apply IH1 in H
      | H : JSONArray _ _ _ n _ = Scanned _ _ |- _ => apply IH3 in H
      end;
      skip_ws_bounds; simpl in *; lia.
Qed.




(** Two units of fuel per character are enough: the scanner does not stop
    for lack of fuel. *)
Lemma scan_not_exhausted (n : nat) :
  (forall d s, (2 * len s + 1 <= n)%nat -> scan1 d n s <> Exhausted) /\
  (forall d s, (2 * len s + 1 <= n)%nat -> scanO d n s <> Exhausted) /\
  (forall d s, (2 * len s + 2 <= n)%nat -> scanA d n s <> Exhausted).
Proof.
  induction n as [|n (IH1 & IH2 & IH3)]; [repeat split; intros; lia|].
  pose proof (scan_consumes n) as (C1 & C2 & C3).
  repeat split.
  - intros d s Hs. simpl. destruct s as [|c s]; [discriminate|].
    simpl in Hs.
    repeat break_scan; try discriminate;
      try apply scan_atom_not_exhausted;
      primitive_lengths; exfalso;
      match goal with
      | H : JSONObject _ _ ?d n ?x = Exhausted |- _ =>
          apply (IH2 d x); [|exact H]
      | H : JSONArray _ _ ?d n ?x = Exhausted |- _ =>
          apply (IH3 d x); [|exact H]
      end; simpl in *; lia.
  - intros d s Hs. simpl.
    repeat break_scan; try discriminate;
      primitive_lengths; exfalso;
      repeat match goal with
      | H : scan_once _ _ _ n _ = Scanned _ _ |- _ => apply C1 in H
      end;
      skip_ws_bounds;
      match goal with
      | H : JSONObject _ _ ?d n ?x = Exhausted |- _ =>
          apply (IH2 d x); [|exact H]
      | H : scan_once _ _ ?d n ?x = Exhausted |- _ =>
          apply (IH1 d x); [|exact H]
      end; simpl in *; lia.
  - intros d s Hs. simpl.
    repeat break_scan; try discriminate;
      primitive_lengths; exfalso;
      repeat match goal with
      | H : scan_once _ _ _ n _ = Scanned _ _ |- _ => apply C1 in H
      end;
      skip_ws_bounds;
      match goal with
      | H : JSONArray _ _ ?d n ?x = Exhausted |- _ =>
          apply (IH3 d x); [|exact H]
      | H : scan_once _ _ ?d n ?x = Exhausted |- _ =>
          apply (IH1 d x); [|exact H]
      end; simpl in *; lia.
Qed.

(** The decoder never stops for lack of fuel: when it raises
    [RecursionError], the text nests deeper than the interpreter allows. *)
Lemma decode_not_exhausted (depth : nat) (s : pystr) :
  decode parse_constant max_digits depth s <> Exhausted.
Proof.
  unfold decode. destruct (startswith s [65279%N]); [discriminate|].
  pose proof (scan_not_exhausted (enough_fuel s)) as (H & _ & _).
  specialize (H depth (skip_ws s)).
  destruct (scan_once parse_constant max_digits depth (enough_fuel s)
              (skip_ws s)) as [v r| e |]; try discriminate.
  - destruct (skip_ws r); discriminate.
  - intros _. apply H; [|reflexivity].
    pose proof (skip_ws_le s). unfold enough_fuel. lia.
Qed.

End ScannerFuel.

(** ** Texts that the decoder accepts without its extensions *)

Section StrictScan.
Context {F : PyFloat}.
Variable parse_constant : pystr -> option float.
Variable max_digits : nat.

Local Abbreviation scan1 := (scan_once parse_constant max_digits).
Local Abbreviation scanO := (JSONObject parse_constant max_digits).
Local Abbreviation scanA := (JSONArray parse_constant max_digits).
Local Abbreviation strict1 := (scan_once (fun _ => None) 0).
Local Abbreviation strictO := (JSONObject (fun _ => None) 0).
Local Abbreviation strictA := (JSONArray (fun _ => None) 0).








(** What the scanners raise. *)
Lemma scan_atom_raises (s : pystr) (e : exn) :
  scan_atom parse_constant max_digits s = Raised e -> decoder_error e.
Proof.
  unfold scan_atom, scan_constant, scan_number, decoder_error.
  repeat match goal with
  | |- context [strip_prefix ?p s] => destruct (strip_prefix p s)
  | |- context [number_groups s] =>
      destruct (number_groups s) as [[[[? f0] e0] ?]|]; [destruct f0, e0|]
  | |- context [exceeds_digits ?a ?b] => destruct (exceeds_digits a b)
  | |- context [parse_constant ?n] => destruct (parse_constant n)
  end; try discriminate; intros [= <-]; auto.
Qed.

Local Ltac break_scan :=
  match goal with
  | |- context [match scanstring ?s with _ => _ end] =>
      destruct (scanstring s) as [[? ?]|] eqn:?
  | |- context [match skip_ws ?s with _ => _ end] =>
      destruct (skip_ws s) eqn:?
  | |- context [match scan_once ?pc ?md ?d ?n ?s with _ => _ end] =>
      destruct (scan_once pc md d n s) eqn:?
  | |- context [match JSONObject ?pc ?md ?d ?n ?s with _ => _ end] =>
      destruct (JSONObject pc md d n s) eqn:?
  | |- context [match JSONArray ?pc ?md ?d ?n ?s with _ => _ end] =>
      destruct (JSONArray pc md d n s) eqn:?
  | |- context [if ?b then _ else _] => destruct b eqn:?
  | |- context [match ?d with O => _ | S _ => _ end] => destruct d
  end.

Lemma scan_raises (n : nat) :
  (forall d s e, scan1 d n s = Raised e -> decoder_error e) /\
  (forall d s e, scanO d n s = Raised e -> decoder_error e) /\
  (forall d s e, scanA d n s = Raised e -> decoder_error e).
Proof.
  induction n as [|n (IH1 & IH2 & IH3)]; [repeat split; discriminate|].
  repeat split; intros d s e; simpl;
    try (destruct s as [|c s]; [intros [= <-]; red; auto|]);
    repeat break_scan; try discriminate;
    try (now apply scan_atom_raises);
    intros H; injection H as <-;
    try (red; now auto);
    match goal with
    | H : scan_once _ _ _ n _ = Raised _ |- _ => exact (IH1 _ _ _ H)
    | H : JSONObject _ _ _ n _ = Raised _ |- _ => exact (IH2 _ _ _ H)
    | H : JSONArray _ _ _ n _ = Raised _ |- _ => exact (IH3 _ _ _ H)
    end.
Qed.

Lemma decode_raises (depth : nat) (s : pystr) (e : exn) :
  decode parse_constant max_digits depth s = Raised e -> decoder_error e.
Proof.
  unfold decode.
  destruct (startswith s [65279%N]); [intros [= <-]; red; auto|].
  destruct (scan_once parse_constant max_digits depth (enough_fuel s)
              (skip_ws s)) as [v0 r0| e0 |] eqn:E; try discriminate.
  - destruct (skip_ws r0); [discriminate | intros [= <-]; red; auto].
  - intros [= <-]. pose proof (scan_raises (enough_fuel s)) as (H & _ & _).
    exact (H _ _ _ E).
Qed.

End StrictScan.

(** ** The command line *)











(** *** Command lines without a positional argument *)








(** *** What [parse_args] makes of a command line *)

Lemma parse_args_error (decimal : N -> bool) (args : list pystr) (e : exn) :
  parse_args decimal args = inl e ->
  (e = SystemExit 0 /\ snd (parse_known_args decimal args) = HelpPrinted) \/
  e = SystemExit 2.
Proof.
  unfold parse_args.
  destruct (parse_known_args decimal args) as [ns stop]. simpl.
  destruct stop as [extras| |].
  - destruct (ns_file ns), (ns_log_group ns), (ns_log_stream ns);
      try (intros [= <-]; now right).
    destruct extras; [discriminate | intros [= <-]; now right].
  - intros [= <-]. now left.
  - intros [= <-]. now right.
Qed.









(** ** The upload *)

Section Upload.
Context {F : PyFloat}.
Variable w : World.

(** What a run has done when it reaches line 82. *)
Lemma before_upload_ok (args : Args) (recs : list pyval) (st : state) :
  before_upload w initial = (inr (args, recs), st) ->
  parse_args (unicode_decimal w) (argv w) = inr args /\
  st = {| ticks := List.length recs;
          trace := [EvOpen (file args); EvSession (region args);
                    EvClient (py "logs")] |} /\
  exists log v r items st1,
    read_text w (file args) = inr log /\
    json_loads (int_max_str_digits w) (loads_depth w) log = Scanned v r /\
    iterate (match v with PDict _ => PList [v] | _ => v end) = inr items /\
    normalize w items (opened (file args)) = (inr recs, st1).
Proof.
  rewrite before_upload_eq.
  destruct (parse_args (unicode_decimal w) (argv w)) as [e|args0];
    [discriminate|].
  destruct (read_text w (file args0)) as [e|log] eqn:Hr; [discriminate|].
  destruct (load_records w log (opened (file args0))) as [[e|levts] st1]
    eqn:Hl; [discriminate|].
  destruct (session_ok w (region args0)); simpl; [|discriminate].
  destruct (client_ok w (region args0)); [|discriminate].
  intros [= <- <- <-].
  destruct (load_records_ok _ _ _ _ _ Hl) as (v & r & items & Hv & Hi & Hn).
  destruct (normalize_ok _ _ _ _ _ Hn) as (Ht & Htr & Hlen & _).
  split; [reflexivity|]. split.
  - rewrite Htr, Ht, <- Hlen. reflexivity.
  - exists log, v, r, items, st1. auto.
Qed.

(** The one request of a run that reaches line 82 with records that
    [json.dumps] can write. *)
Lemma requests_of_run (args : Args) (recs : list pyval) (st : state) :
  before_upload w initial = (inr (args, recs), st) ->
  serializable w recs = true ->
  put_requests (snd (run w))
  = [(log_group args, log_stream args,
      events_at w (List.length recs) recs)].
Proof.
  intros H Hs.
  pose proof (before_upload_ok _ _ _ H) as (_ & Hst & _).
  rewrite (run_uploading _ _ _ _ H Hs). simpl.
  rewrite put_requests_app, (before_upload_trace _ _ _ H). simpl.
  now subst st.
Qed.

(** C3 (amended): a run that reaches line 82 with n records, each of which
    [json.dumps] can write, issues exactly one [put_log_events] request,
    for the log group and the log stream of the command line; its list of
    events has n entries, in the order of the records; the message of the
    i-th event is [json.dumps] of the i-th record (one line, with the
    separators [', '] and [': ']) and its timestamp is [int(T * 1000)],
    computed in floats, for a reading [T] of the clock of its own, the
    (n + i)-th of the run.  When [json.dumps] raises on a record
    ([RecursionError] on one nested too deep, [ValueError] on an integer
    with too many digits), the run ends there and issues no request. *)
Theorem one_request_one_event_per_record
  (args : Args) (recs : list pyval) (st : state) :
  before_upload w initial = (inr (args, recs), st) ->
  (serializable w recs = true ->
   exists evs,
     put_requests (snd (run w)) = [(log_group args, log_stream args, evs)] /\
     List.length evs = List.length recs /\
     forall i m, nth_error recs i = Some m ->
       nth_error evs i
       = Some (json_dumps m, ms_of (clock w (List.length recs + i)))) /\
  (serializable w recs = false ->
   put_requests (snd (run w)) = [] /\
   exists e, fst (run w) = inl e /\ (e = RecursionError \/ e = ValueError)).
Proof.
  intros H. split; intros Hs.
  - exists (events_at w (List.length recs) recs).
    split; [exact (requests_of_run args recs st H Hs)|].
    split; [apply events_at_length|].
    intros i m Hm. now rewrite (events_at_nth _ _ _ _ _ Hm).
  - destruct (run_unserializable _ _ _ _ H Hs) as (e & -> & He). simpl.
    split; [now rewrite (before_upload_trace _ _ _ H) | eauto].
Qed.

(** C5: for every record of a run that reaches the upload and carries an
    ['_aws'] timestamp, the record's event exists when [json.dumps] writes
    the records, and its timestamp is not smaller than the ['_aws']
    timestamp of the record, provided the clock read for the event is not
    behind the clock read for the record's normalization (and the two
    products by 1000 are finite floats, as they are for readings of
    [time.time()]). *)
Theorem event_timestamp_not_before_record
  (args : Args) (recs : list pyval) (st : state) (i : nat) (m : pyval)
  (t : Z) :
  float_order_laws F ->
  before_upload w initial = (inr (args, recs), st) ->
  serializable w recs = true ->
  nth_error recs i = Some m ->
  aws_timestamp m = Some (PInt t) ->
  float_le (clock w i) (clock w (List.length recs + i)) ->
  float_kind_of (float_sub (float_mul (clock w i) (float_of_int 1000))
                           (float_of_int 1000)) = FFinite ->
  float_kind_of (float_mul (clock w (List.length recs + i))
                           (float_of_int 1000)) = FFinite ->
  exists g s evs msg ts,
    put_requests (snd (run w)) = [(g, s, evs)] /\
    nth_error evs i = Some (msg, ts) /\
    t <= ts.
Proof.
  intros laws H Hser Hm Ht Hclock Hfin1 Hfin2.
  exists (log_group args), (log_stream args),
         (events_at w (List.length recs) recs), (json_dumps m),
         (ms_of (clock w (List.length recs + i))).
  split; [exact (requests_of_run args recs st H Hser)|].
  split; [now apply events_at_nth|].
  destruct (before_upload_ok _ _ _ H)
    as (_ & _ & log & v & r & items & st1 & _ & _ & _ & Hn).
  destruct (normalize_ok _ _ _ _ _ Hn) as (_ & _ & Hlen & Hnth).
  assert (Hi : (i < List.length items)%nat).
  { rewrite <- Hlen. apply nth_error_Some. congruence. }
  destruct (nth_error items i) as [e|] eqn:He;
    [|apply nth_error_None in He; lia].
  destruct (Hnth _ _ He) as (e' & He' & Hs).
  rewrite Hm in He'. inversion He'; subst e'.
  pose proof (aws_timestamp_stored _ _ _ _ Hs Ht) as Heq.
  inversion Heq; subst t. simpl.
  unfold ms_one_second_before, ms_of.
  apply (trunc_mono laws); [exact Hfin1 | exact Hfin2 |].
  pose proof (mul_1000_mono laws _ _ Hclock) as Hmul.
  apply (le_trans laws) with (y := float_mul (clock w i) (float_of_int 1000));
    [|exact Hmul].
  apply (sub_1000_le laws). exact (le_comparable laws _ _ Hmul).
Qed.

End Upload.

Lemma whole_floats_order : float_order_laws whole_floats.
Proof.
  split; simpl.
  - intros [a| | |] [b| | |] [c| | |]; simpl; try tauto. lia.
  - intros [a| | |] [b| | |]; simpl; try tauto. lia.
  - intros [a| | |] [b| | |]; simpl; try tauto. lia.
  - intros [a| | |]; simpl; try tauto. lia.
  - intros [a| | |] [b| | |]; simpl; try tauto; discriminate.
Qed.

(** ** Runs in worlds that agree *)

Section Agreement.
Context {F : PyFloat}.
Variables w1 w2 : World.
Hypothesis same_clock : forall k, clock w1 k = clock w2 k.
Hypothesis same_digits : int_max_str_digits w1 = int_max_str_digits w2.
Hypothesis same_loads_depth : loads_depth w1 = loads_depth w2.
Hypothesis same_dumps_depth : dumps_depth w1 = dumps_depth w2.

Lemma normalize_ext (items : list pyval) (st : state) :
  normalize w1 items st = normalize w2 items st.
Proof.
  revert st. induction items as [|e items IH]; intros st; [reflexivity|].
  rewrite !normalize_cons. simpl. rewrite same_clock.
  destruct (store_timestamp e _) as [x|e']; [reflexivity|].
  now rewrite IH.
Qed.

Lemma load_records_ext (log : pystr) (st : state) :
  load_records w1 log st = load_records w2 log st.
Proof.
  unfold load_records, bind, loads.
  rewrite same_digits, same_loads_depth.
  destruct (json_loads _ _ log) as [v r| e |]; try reflexivity.
  unfold ret, lift.
  destruct (iterate _) as [e|items]; [reflexivity|].
  apply normalize_ext.
Qed.

Lemma events_at_ext (items : list pyval) (k : nat) :
  events_at w1 k items = events_at w2 k items.
Proof.
  revert k. induction items as [|m items IH]; intros k; simpl; auto.
  now rewrite same_clock, IH.
Qed.

Lemma serializable_ext (items : list pyval) :
  serializable w1 items = serializable w2 items.
Proof. unfold serializable. now rewrite same_digits, same_dumps_depth. Qed.

End Agreement.

(** A run is what it does before the upload, then the upload. *)
Lemma run_from_upload {F : PyFloat} (w : World) :
  run w =
  match before_upload w initial with
  | (inl e, st) => (inl e, trace st)
  | (inr p, st) => let (r, st') := upload w (fst p) (snd p) st in
                   (r, trace st')
  end.
Proof.
  unfold run. rewrite main_split. unfold bind.
  destruct (before_upload w initial) as [[e|p] st]; reflexivity.
Qed.

Section InputShape.
Context {F : PyFloat}.
Variable w : World.

(** C4 (amended): a file whose content [json.loads] reads as one object
    and a file whose content it reads as the one-element array of that
    object give the same run: the same outcome and the same trace (the
    same file opened, the same session, client and request with the same
    events). *)
Theorem single_object_as_one_element_array
  (f1 f2 : pystr -> option (list Byte.byte)) (args : Args)
  (t1 t2 r1 r2 : pystr) (d : dict) :
  parse_args (unicode_decimal w) (argv w) = inr args ->
  read_text (with_files w f1) (file args) = inr t1 ->
  read_text (with_files w f2) (file args) = inr t2 ->
  json_loads (int_max_str_digits w) (loads_depth w) t1
  = Scanned (PDict d) r1 ->
  json_loads (int_max_str_digits w) (loads_depth w) t2
  = Scanned (PList [PDict d]) r2 ->
  run (with_files w f1) = run (with_files w f2).
Proof.
  intros Hp Hr1 Hr2 Hj1 Hj2.
  assert (Hl : forall st, load_records (with_files w f1) t1 st
                          = load_records (with_files w f2) t2 st).
  { intros st. unfold load_records, bind, loads. simpl.
    now rewrite Hj1, Hj2. }
  assert (Hb : before_upload (with_files w f1) initial
               = before_upload (with_files w f2) initial).
  { rewrite !before_upload_eq.
    change (unicode_decimal (with_files w f1)) with (unicode_decimal w).
    change (unicode_decimal (with_files w f2)) with (unicode_decimal w).
    simpl argv. rewrite Hp, Hr1, Hr2, Hl. reflexivity. }
  rewrite !run_from_upload, Hb.
  destruct (before_upload (with_files w f2) initial) as [[e|p] st];
    reflexivity.
Qed.

End InputShape.

Section Determinism.
Context {F : PyFloat}.
Variables w1 w2 : World.

(** C10: two runs with the same command line, the same contents of the
    file named on it and the same clock readings, in the same interpreter
    (its Unicode table, the codec of its locale, its limits on nesting and
    on the digits of an integer), send the same request: when the first
    run reaches line 82 with records that [json.dumps] can write, and the
    session and the client are created in the second, each of the two
    runs issues one request, with the same log group, log stream and list
    of (message, timestamp) pairs, whatever the service answers. *)
Theorem same_inputs_same_request
  (args : Args) (recs : list pyval) (st : state) :
  argv w1 = argv w2 ->
  files w1 (file args) = files w2 (file args) ->
  (forall k, clock w1 k = clock w2 k) ->
  wide_decimal w1 = wide_decimal w2 ->
  locale_decode w1 = locale_decode w2 ->
  int_max_str_digits w1 = int_max_str_digits w2 ->
  loads_depth w1 = loads_depth w2 ->
  dumps_depth w1 = dumps_depth w2 ->
  session_ok w2 (region args) = true ->
  client_ok w2 (region args) = true ->
  before_upload w1 initial = (inr (args, recs), st) ->
  serializable w1 recs = true ->
  exists evs,
    put_requests (snd (run w1)) = [(log_group args, log_stream args, evs)] /\
    put_requests (snd (run w2)) = [(log_group args, log_stream args, evs)] /\
    List.length evs = List.length recs.
Proof.
  intros Hargv Hfiles Hclock Hwide Hlocale Hdigits Hloads Hdumps
         Hsession Hclient Hb1 Hser.
  assert (Hb2 : before_upload w2 initial = (inr (args, recs), st)).
  { revert Hb1. rewrite !before_upload_eq.
    unfold unicode_decimal. rewrite <- Hwide, <- Hargv.
    destruct (parse_args _ (argv w1)) as [e|args0]; [discriminate|].
    destruct (read_text w1 (file args0)) as [e|log] eqn:Hr1; [discriminate|].
    destruct (load_records w1 log (opened (file args0))) as [[e|levts] st1]
      eqn:Hl1; [discriminate|].
    destruct (session_ok w1 (region args0)); [|discriminate].
    simpl. destruct (client_ok w1 (region args0)); [|discriminate].
    intros [= -> -> <-].
    assert (Hr2 : read_text w2 (file args) = inr log).
    { unfold read_text in *. now rewrite <- Hfiles, <- Hlocale. }
    rewrite Hr2.
    rewrite <- (load_records_ext w1 w2 Hclock Hdigits Hloads), Hl1.
    now rewrite Hsession, Hclient. }
  assert (Hser2 : serializable w2 recs = true).
  { now rewrite <- (serializable_ext w1 w2 Hdigits Hdumps). }
  exists (events_at w1 (ticks st) recs).
  rewrite (run_uploading _ _ _ _ Hb1 Hser), (run_uploading _ _ _ _ Hb2 Hser2).
  simpl. rewrite !put_requests_app.
  rewrite (before_upload_trace _ _ _ Hb1). simpl.
  rewrite (events_at_ext w1 w2 Hclock).
  repeat split. apply events_at_length.
Qed.

End Determinism.

(** ** Failures before the upload *)

Section EarlyFailures.
Context {F : PyFloat}.
Variable w : World.



Lemma read_text_error (path : pystr) (e : exn) :
  read_text w path = inl e -> e = OSError \/ e = UnicodeDecodeError.
Proof.
  unfold read_text. destruct (files w path); [|intros [= <-]; auto].
  destruct (locale_decode w _); [discriminate | intros [= <-]; auto].
Qed.



End EarlyFailures.

(** * Further properties of [main] *)

(** ** Which items line 75 accepts *)

Section RecordShape.
Context {F : PyFloat}.
Variable w : World.

Lemma store_timestamp_ok_iff (e : pyval) (ts : Z) :
  (exists e', store_timestamp e ts = inr e') <-> record_ok e = true.
Proof.
  unfold store_timestamp, get_or_default, record_ok, setitem.
  destruct e; try (split; [intros [e' H]; discriminate | discriminate]).
  destruct (dict_get d (py "_aws")) as [v|] eqn:E.
  - rewrite E. destruct v;
      try (split; [intros [e' H]; discriminate | discriminate]).
    split; eauto.
  - split; eauto.
Qed.

Lemma store_timestamp_error (e : pyval) (ts : Z) (x : exn) :
  store_timestamp e ts = inl x -> x = AttributeError \/ x = TypeError.
Proof.
  unfold store_timestamp, get_or_default, setitem.
  destruct e; try (intros [= <-]; auto).
  destruct (dict_get d (py "_aws")) as [v|] eqn:E.
  - rewrite E. destruct v; try (intros [= <-]; auto); discriminate.
  - discriminate.
Qed.

(** What the loop of lines 71-75 does, by the shape of the items. *)
Lemma normalize_outcome (items : list pyval) (st : state) :
  (forallb record_ok items = true ->
     exists items' st', normalize w items st = (inr items', st')) /\
  (forallb record_ok items = false ->
     exists x st', normalize w items st = (inl x, st') /\
                   (x = AttributeError \/ x = TypeError)).
Proof.
  revert st. induction items as [|e items IH]; intros st.
  - split; [|discriminate]. intros _. exists [], st. reflexivity.
  - rewrite normalize_cons. cbv zeta. simpl forallb.
    destruct (store_timestamp e _) as [x|e'] eqn:Hs.
    + assert (Hr : record_ok e = false).
      { destruct (record_ok e) eqn:Hr; auto.
        apply (store_timestamp_ok_iff e
                 (ms_one_second_before (clock w (ticks st)))) in Hr.
        destruct Hr as [e' He']. congruence. }
      rewrite Hr. simpl. split; [discriminate|].
      intros _. eexists _, _. split; [reflexivity|].
      now apply store_timestamp_error in Hs.
    + assert (Hr : record_ok e = true).
      { eapply store_timestamp_ok_iff. eauto. }
      rewrite Hr. simpl.
      destruct (IH {| ticks := S (ticks st); trace := trace st |})
        as [IHok IHbad].
      split; intros H.
      * destruct (IHok H) as (items' & st' & ->). eauto.
      * destruct (IHbad H) as (x & st' & -> & Hx). eauto.
Qed.

Lemma normalize_error (items : list pyval) (st st' : state) (x : exn) :
  normalize w items st = (inl x, st') -> x = AttributeError \/ x = TypeError.
Proof.
  intros H.
  destruct (normalize_outcome items st) as [Hok Hbad].
  destruct (forallb record_ok items).
  - destruct (Hok eq_refl) as (items' & st1 & H1). congruence.
  - destruct (Hbad eq_refl) as (y & st1 & H1 & Hy). congruence.
Qed.

(** X1: the loop of lines 71-75 completes exactly when every item is a
    mapping whose ['_aws'] entry, if present, is a mapping; otherwise it
    raises [AttributeError] (an item without [get]) or [TypeError] (an
    ['_aws'] value that takes no item assignment). *)
Theorem normalize_succeeds_iff (items : list pyval) (st : state) :
  (forallb record_ok items = true <->
     exists items' st', normalize w items st = (inr items', st')) /\
  (forallb record_ok items = false <->
     exists x st', normalize w items st = (inl x, st') /\
                   (x = AttributeError \/ x = TypeError)).
Proof.
  destruct (normalize_outcome items st) as [Hok Hbad].
  destruct (forallb record_ok items) eqn:E.
  - destruct (Hok eq_refl) as (items' & st' & Hn).
    split; split; eauto; try discriminate.
    intros (x & st1 & Hx & _). congruence.
  - destruct (Hbad eq_refl) as (x & st' & Hn & Hx).
    split; split; eauto; try discriminate.
    intros (items' & st1 & H1). congruence.
Qed.

End RecordShape.

(** ** Inputs that are not a sequence of records *)

Section BadRecords.
Context {F : PyFloat}.
Variable w : World.

Lemma before_upload_loaded (args : Args) (log : pystr) (v : pyval)
  (r : pystr) :
  parse_args (unicode_decimal w) (argv w) = inr args ->
  read_text w (file args) = inr log ->
  json_loads (int_max_str_digits w) (loads_depth w) log = Scanned v r ->
  before_upload w initial =
  match iterate (match v with PDict _ => PList [v] | _ => v end) with
  | inl x => (inl x, opened (file args))
  | inr items =>
      match normalize w items (opened (file args)) with
      | (inl x, st) => (inl x, st)
      | (inr levts, st) =>
          if negb (session_ok w (region args)) then
            (inl BotoError,
             {| ticks := ticks st;
                trace := trace st ++ [EvSession (region args)] |})
          else
            let st' :=
              {| ticks := ticks st;
                 trace := (trace st ++ [EvSession (region args)])
                          ++ [EvClient (py "logs")] |} in
            if client_ok w (region args) then (inr (args, levts), st')
            else (inl BotoError, st')
      end
  end.
Proof.
  intros Hp Hr Hj. rewrite before_upload_eq, Hp, Hr.
  unfold load_records, bind, loads. rewrite Hj. simpl.
  destruct (iterate _) as [x|items]; simpl; [reflexivity|].
  destruct (normalize w items (opened (file args))) as [[x|levts] st];
    reflexivity.
Qed.

(** X2: when some loaded item is not a mapping, or its ['_aws'] entry is not a
    mapping, the run ends in the loop of lines 71-75 with [AttributeError]
    or [TypeError]: exit status 1, the file opened and nothing sent. *)
Theorem malformed_record_stops_before_network
  (args : Args) (log : pystr) (v : pyval) (r : pystr)
  (items : list pyval) :
  parse_args (unicode_decimal w) (argv w) = inr args ->
  read_text w (file args) = inr log ->
  json_loads (int_max_str_digits w) (loads_depth w) log = Scanned v r ->
  iterate (match v with PDict _ => PList [v] | _ => v end) = inr items ->
  forallb record_ok items = false ->
  exists x,
    run w = (inl x, [EvOpen (file args)]) /\
    (x = AttributeError \/ x = TypeError) /\
    exit_status (fst (run w)) = 1.
Proof.
  intros Hp Hr Hj Hi Hbad.
  pose proof (before_upload_loaded args log v r Hp Hr Hj) as Hb.
  rewrite Hi in Hb.
  destruct (normalize_outcome w items (opened (file args)))
    as [_ Hfail].
  destruct (Hfail Hbad) as (x & st' & Hn & Hx).
  pose proof (normalize_trace w items (opened (file args))) as Ht.
  rewrite Hn in Hb, Ht. simpl in Ht.
  exists x. rewrite (run_stopped _ _ _ Hb), Ht. simpl.
  repeat split; auto.
  destruct Hx as [-> | ->]; reflexivity.
Qed.

(** X3: a file whose JSON value is a number, [true], [false] or [null] cannot
    be iterated at line 71: the run ends with [TypeError], exit status 1,
    the file opened and nothing sent. *)
Theorem scalar_input_raises_type_error
  (args : Args) (log : pystr) (v : pyval) (r : pystr) :
  parse_args (unicode_decimal w) (argv w) = inr args ->
  read_text w (file args) = inr log ->
  json_loads (int_max_str_digits w) (loads_depth w) log = Scanned v r ->
  match v with
  | PNone | PBool _ | PInt _ | PFloat _ => True
  | _ => False
  end ->
  run w = (inl TypeError, [EvOpen (file args)]) /\
  exit_status (fst (run w)) = 1.
Proof.
  intros Hp Hr Hj Hv.
  pose proof (before_upload_loaded args log v r Hp Hr Hj) as Hb.
  assert (Hi : iterate (match v with PDict _ => PList [v] | _ => v end)
               = inl TypeError).
  { destruct v; simpl in *; try reflexivity; contradiction. }
  rewrite Hi in Hb. rewrite (run_stopped _ _ _ Hb). simpl. auto.
Qed.

(** X4: a file whose JSON value is a string is iterated character by
    character: the empty string gives a request with no events; any other
    string ends the run at its first character with [AttributeError]. *)
Theorem string_input_behaviour
  (args : Args) (log : pystr) (s r : pystr) :
  parse_args (unicode_decimal w) (argv w) = inr args ->
  read_text w (file args) = inr log ->
  json_loads (int_max_str_digits w) (loads_depth w) log
  = Scanned (PStr s) r ->
  match s with
  | [] =>
      session_ok w (region args) = true ->
      client_ok w (region args) = true ->
      snd (run w) = full_trace args []
  | _ :: _ => run w = (inl AttributeError, [EvOpen (file args)])
  end.
Proof.
  intros Hp Hr Hj.
  pose proof (before_upload_loaded args log (PStr s) r Hp Hr Hj) as Hb.
  simpl iterate in Hb.
  destruct s as [|c s].
  - intros Hs Hc. simpl in Hb. unfold ret in Hb. rewrite Hs, Hc in Hb.
    simpl in Hb. rewrite (run_uploading _ _ _ _ Hb eq_refl). reflexivity.
  - simpl map in Hb. rewrite normalize_cons in Hb. simpl in Hb.
    now rewrite (run_stopped _ _ _ Hb).
Qed.

End BadRecords.

(** ** The shape of every run *)

Section RunShape.
Context {F : PyFloat}.
Variable w : World.

Lemma load_records_error (log : pystr) (st st' : state) (x : exn) :
  load_records w log st = (inl x, st') ->
  decoder_error x \/ x = AttributeError \/ x = TypeError.
Proof.
  unfold load_records, bind, loads.
  pose proof (decode_not_exhausted constants (int_max_str_digits w)
                (loads_depth w) log) as Hne.
  fold (json_loads (int_max_str_digits w) (loads_depth w) log) in Hne.
  destruct (json_loads _ _ log) as [v r| e |] eqn:E; simpl;
    [| intros [= <- _]; left; exact (decode_raises _ _ _ _ _ E)
     | congruence].
  destruct (iterate _) as [y|items] eqn:Hi; simpl.
  - intros [= <- _]. right; right.
    destruct v; simpl in Hi; try discriminate; congruence.
  - intros H. right. now apply (normalize_error w) in H.
Qed.

(** The trace and the outcome of a run that reaches line 82. *)
Lemma run_after_client (args : Args) (recs : list pyval) (st : state) :
  before_upload w initial = (inr (args, recs), st) ->
  let evs := events_at w (List.length recs) recs in
  (serializable w recs = true ->
   snd (run w) = full_trace args evs /\
   exit_status (fst (run w))
   = (if put_ok w (log_group args) (log_stream args) evs then 0 else 1)) /\
  (serializable w recs = false ->
   snd (run w) = firstn 3 (full_trace args evs) /\
   exit_status (fst (run w)) = 1).
Proof.
  intros H evs.
  destruct (before_upload_ok w args recs st H) as (_ & -> & _).
  split; intros Hs.
  - rewrite (run_uploading _ _ _ _ H Hs). simpl. fold evs.
    split; [reflexivity|].
    destruct (put_ok w (log_group args) (log_stream args) evs); reflexivity.
  - destruct (run_unserializable _ _ _ _ H Hs) as (e & -> & He). simpl.
    split; [reflexivity|]. destruct He as [-> | ->]; reflexivity.
Qed.

(** X5: after line 81 the upload is attempted at most once.  When
    [json.dumps] writes every record, the trace of the run is the opening
    of the file, the session, the client and one request with the events
    of the records; the exit status is 0 when the service accepts the
    request and 1 when it raises, and nothing is sent again.  When
    [json.dumps] raises on a record, the trace stops after the client, no
    request is sent and the exit status is 1. *)
Theorem upload_attempted_once
  (args : Args) (recs : list pyval) (st : state) :
  before_upload w initial = (inr (args, recs), st) ->
  let evs := events_at w (List.length recs) recs in
  (serializable w recs = true ->
   snd (run w) = full_trace args evs /\
   exit_status (fst (run w))
   = (if put_ok w (log_group args) (log_stream args) evs then 0 else 1)) /\
  (serializable w recs = false ->
   snd (run w) = firstn 3 (full_trace args evs) /\
   put_requests (snd (run w)) = [] /\
   exit_status (fst (run w)) = 1).
Proof.
  intros H evs.
  destruct (run_after_client args recs st H) as [Hsent Hnot].
  split; intros Hs.
  - exact (Hsent Hs).
  - destruct (Hnot Hs) as [Ht He]. split; [exact Ht|]. split; [|exact He].
    now rewrite Ht.
Qed.

(** X6: every run does a prefix of the same four actions, in the same
    order: open the file, create the session, create the client, send one
    request.  With a command line that does not parse, it does nothing. *)
Theorem run_trace_is_prefix :
  match parse_args (unicode_decimal w) (argv w) with
  | inl _ => snd (run w) = []
  | inr args =>
      exists evs k, (1 <= k <= 4)%nat /\
        snd (run w) = firstn k (full_trace args evs)
  end.
Proof.
  destruct (before_upload w initial) as [[e|[a recs]] st] eqn:Hb.
  - rewrite (run_stopped _ _ _ Hb). simpl.
    rewrite before_upload_eq in Hb.
    destruct (parse_args (unicode_decimal w) (argv w)) as [e0|args].
    { now inversion Hb. }
    destruct (read_text w (file args)) as [e1|log].
    { inversion Hb; subst. exists [], 1%nat. split; [lia | reflexivity]. }
    pose proof (load_records_trace w log (opened (file args))) as Ht.
    destruct (load_records w log (opened (file args))) as [[e2|levts] st1];
      simpl in Ht.
    { inversion Hb; subst. rewrite Ht.
      exists [], 1%nat. split; [lia | reflexivity]. }
    destruct (session_ok w (region args)); simpl in Hb.
    + destruct (client_ok w (region args)); inversion Hb; subst. simpl.
      rewrite Ht. exists [], 3%nat. split; [lia | reflexivity].
    + inversion Hb; subst. simpl. rewrite Ht.
      exists [], 2%nat. split; [lia | reflexivity].
  - destruct (before_upload_ok w a recs st Hb) as (Hp & _ & _).
    rewrite Hp.
    destruct (run_after_client a recs st Hb) as [Hsent Hnot].
    exists (events_at w (List.length recs) recs).
    destruct (serializable w recs).
    + exists 4%nat. split; [lia | exact (proj1 (Hsent eq_refl))].
    + exists 3%nat. split; [lia | exact (proj1 (Hnot eq_refl))].
Qed.

(** X7: the process exits with status 0 in two cases only: the help text
    was printed and nothing else was done, or the one request was sent and
    the service accepted it. *)
Theorem exit_zero_means_help_or_accepted :
  exit_status (fst (run w)) = 0 ->
  (snd (parse_known_args (unicode_decimal w) (argv w)) = HelpPrinted /\
   snd (run w) = []) \/
  (exists args evs,
     parse_args (unicode_decimal w) (argv w) = inr args /\
     snd (run w) = full_trace args evs /\
     put_ok w (log_group args) (log_stream args) evs = true).
Proof.
  destruct (before_upload w initial) as [[e|[a recs]] st] eqn:Hb.
  - rewrite (run_stopped _ _ _ Hb). simpl. intros He.
    rewrite before_upload_eq in Hb.
    destruct (parse_args (unicode_decimal w) (argv w)) as [e0|args] eqn:Hp.
    { inversion Hb; subst. left. split; [|reflexivity].
      destruct (parse_args_error _ _ _ Hp) as [[-> Hh] | ->];
        [exact Hh | discriminate]. }
    exfalso.
    destruct (read_text w (file args)) as [e1|log] eqn:Hr.
    { inversion Hb; subst.
      destruct (read_text_error _ _ _ Hr) as [-> | ->]; discriminate. }
    destruct (load_records w log (opened (file args))) as [[e2|levts] st1]
      eqn:Hl.
    { inversion Hb; subst.
      destruct (load_records_error _ _ _ _ Hl)
        as [[-> | [-> | ->]] | [-> | ->]]; discriminate. }
    destruct (session_ok w (region args)); simpl in Hb.
    + destruct (client_ok w (region args)); inversion Hb; subst.
      discriminate.
    + inversion Hb; subst. discriminate.
  - intros He. right.
    destruct (before_upload_ok w a recs st Hb) as (Hp & _ & _).
    destruct (run_after_client a recs st Hb) as [Hsent Hnot].
    exists a, (events_at w (List.length recs) recs).
    destruct (serializable w recs).
    + destruct (Hsent eq_refl) as [Ht Hs].
      repeat split; auto.
      rewrite Hs in He.
      destruct (put_ok w (log_group a) (log_stream a) _); [reflexivity|].
      discriminate.
    + destruct (Hnot eq_refl) as (_ & Hs). rewrite Hs in He.
      discriminate.
Qed.

End RunShape.

(** ** More on normalization *)

Section NormalizationMore.
Context {F : PyFloat}.

Lemma dict_set_set (d : dict) (k : pystr) (v v' : pyval) :
  dict_set (dict_set d k v) k v' = dict_set d k v'.
Proof.
  induction d as [|[k0 v0] d IH]; simpl.
  - now rewrite str_eqb_refl.
  - destruct (str_eqb k0 k) eqn:E; simpl; rewrite E; [reflexivity|].
    now rewrite IH.
Qed.

(** X8: the timestamp a record carries before line 75 has no influence on the
    record after it: normalizing an already normalized record gives what
    normalizing the original gives. *)
Theorem store_timestamp_overwrites (e e1 : pyval) (t1 t2 : Z) :
  store_timestamp e t1 = inr e1 ->
  store_timestamp e1 t2 = store_timestamp e t2.
Proof.
  intros H.
  destruct (store_timestamp_inv _ _ _ H) as (d & -> & [Hn | (a & Ha)]).
  - rewrite (store_timestamp_absent d t1 Hn) in H. now inversion H.
  - rewrite (store_timestamp_present d a t1 Ha) in H. inversion H; subst e1.
    rewrite (store_timestamp_present d a t2 Ha).
    rewrite (store_timestamp_present _ _ t2 (dict_get_set_same d _ _)).
    now rewrite !dict_set_set.
Qed.

Variable w : World.

(** X9: normalization never adds, removes or reorders the top-level keys of a
    record, and never changes a top-level entry other than ['_aws']. *)
Theorem normalize_keeps_top_level
  (items items' : list pyval) (st st' : state) (i : nat) (d : dict) :
  normalize w items st = (inr items', st') ->
  nth_error items i = Some (PDict d) ->
  exists d',
    nth_error items' i = Some (PDict d') /\
    keys d' = keys d /\
    forall k, k <> py "_aws" -> dict_get d' k = dict_get d k.
Proof.
  intros H Hi.
  destruct (normalize_ok _ _ _ _ _ H) as (_ & _ & _ & Hnth).
  destruct (Hnth _ _ Hi) as (e' & He' & Hs).
  destruct (store_timestamp_inv _ _ _ Hs) as (d0 & [= <-] & [Hn | (a & Ha)]).
  - rewrite (store_timestamp_absent _ _ Hn) in Hs. inversion Hs; subst e'.
    exists d. auto.
  - rewrite (store_timestamp_present _ _ _ Ha) in Hs. inversion Hs; subst e'.
    eexists. split; [exact He'|]. split.
    + apply keys_set_present. congruence.
    + intros k Hk. now apply dict_get_set_other.
Qed.

End NormalizationMore.

(** ** Concrete runs *)

(** C3 as stated fails on the word "compact": for the file [{"a":1}] the
    message sent is [{"a": 1}], with a space after the colon, and not the
    compact encoding [{"a":1}] of the record.  It also fails on "exactly
    one call": with the file [deep_object], in an interpreter that has
    room for the 993 nested containers at line 68 and not at line 86, the
    run reaches line 82 with one record, [json.dumps] raises
    [RecursionError] and no request is issued. *)
Lemma message_not_compact_or_not_sent :
  (let w := sample_world (js "{'a':1}") in
   let m := @PDict whole_floats [(py "a", PInt 1)] in
   before_upload w initial = (inr (sample_args, [m]), at_upload 1) /\
   put_requests (snd (run w)) = [(py "G", py "S", [(js "{'a': 1}", 6000)])] /\
   compact_json m = js "{'a':1}" /\
   js "{'a': 1}" <> compact_json m) /\
  (let w := tight_world deep_object in
   (exists recs st,
      before_upload w initial = (inr (sample_args, recs), st) /\
      List.length recs = 1%nat) /\
   run w = (inl RecursionError,
            [EvOpen (py "file.json"); EvSession None; EvClient (py "logs")]) /\
   put_requests (snd (run w)) = []).
Proof.
  split.
  - intros w m. split; [reflexivity|].
    split; [vm_compute; reflexivity|].
    split; [reflexivity | vm_compute; discriminate].
  - intros w. split.
    + assert (H : match before_upload w initial with
                  | (inr (args, recs), _) =>
                      (str_eqb (file args) (py "file.json")
                       && str_eqb (log_group args) (py "G")
                       && str_eqb (log_stream args) (py "S")
                       && match region args with None => true | _ => false end
                       && Nat.eqb (List.length recs) 1)%bool
                  | _ => false
                  end = true) by (vm_compute; reflexivity).
      destruct (before_upload w initial) as [[e|[[f g s r] recs]] st];
        [discriminate|].
      simpl in H. rewrite !andb_true_iff, !str_eqb_eq, Nat.eqb_eq in H.
      destruct H as ((((-> & ->) & ->) & Hr) & Hn).
      destruct r; [discriminate|]. exists recs, st. auto.
    + split; vm_compute; reflexivity.
Qed.

Lemma one_request_one_event_per_record_witness :
  let w := sample_world two_records in
  let recs := [stamped_record; bare_record] in
  before_upload w initial = (inr (sample_args, recs), at_upload 2) /\
  serializable w recs = true /\
  exists evs,
    put_requests (snd (run w)) = [(py "G", py "S", evs)] /\
    List.length evs = 2%nat /\
    forall i m, nth_error recs i = Some m ->
      nth_error evs i = Some (json_dumps m, ms_of (clock w (2 + i))).
Proof.
  intros w recs.
  assert (H : before_upload w initial = (inr (sample_args, recs), at_upload 2))
    by reflexivity.
  assert (Hs : serializable w recs = true) by reflexivity.
  split; [exact H|]. split; [exact Hs|].
  exact (proj1 (one_request_one_event_per_record w sample_args recs
                  (at_upload 2) H) Hs).
Defined.

Lemma event_timestamp_not_before_record_witness :
  let w := sample_world two_records in
  let recs := [stamped_record; bare_record] in
  before_upload w initial = (inr (sample_args, recs), at_upload 2) /\
  serializable w recs = true /\
  nth_error recs 0 = Some stamped_record /\
  aws_timestamp stamped_record = Some (PInt 4000) /\
  float_le (clock w 0) (clock w (2 + 0)) /\
  exists g s evs msg ts,
    put_requests (snd (run w)) = [(g, s, evs)] /\
    nth_error evs 0 = Some (msg, ts) /\
    4000 <= ts.
Proof.
  intros w recs.
  assert (H : before_upload w initial = (inr (sample_args, recs), at_upload 2))
    by reflexivity.
  assert (Hs : serializable w recs = true) by reflexivity.
  assert (Hc : float_le (clock w 0) (clock w (2 + 0))) by (simpl; lia).
  split; [exact H|]. split; [exact Hs|].
  split; [reflexivity|]. split; [reflexivity|]. split; [exact Hc|].
  exact (event_timestamp_not_before_record w sample_args recs (at_upload 2)
           0 stamped_record 4000 whole_floats_order H Hs eq_refl eq_refl Hc
           eq_refl eq_refl).
Defined.

(** C4 as stated fails where the array around the object is one container
    too many: in an interpreter that has room for 993 nested containers at
    line 68, the file [deep_object] is loaded and the run goes on to create
    the session and the client, while the file that holds the one-element
    array of the same object ends the run in [json.loads], before any
    session. *)
Lemma object_and_array_runs_differ :
  let array := js "[" ++ deep_object ++ js "]" in
  valid_json (F := whole_floats) deep_object = true /\
  valid_json (F := whole_floats) array = true /\
  run (tight_world deep_object)
  = (inl RecursionError,
     [EvOpen (py "file.json"); EvSession None; EvClient (py "logs")]) /\
  run (tight_world array) = (inl RecursionError, [EvOpen (py "file.json")]) /\
  run (tight_world deep_object) <> run (tight_world array).
Proof.
  intros array.
  assert (H1 : run (tight_world deep_object)
               = (inl RecursionError,
                  [EvOpen (py "file.json"); EvSession None;
                   EvClient (py "logs")])) by (vm_compute; reflexivity).
  assert (H2 : run (tight_world array)
               = (inl RecursionError, [EvOpen (py "file.json")]))
    by (vm_compute; reflexivity).
  split; [vm_compute; reflexivity|]. split; [vm_compute; reflexivity|].
  split; [exact H1|]. split; [exact H2|].
  rewrite H1, H2. discriminate.
Qed.

Lemma single_object_as_one_element_array_witness :
  let w := sample_world [] in
  let f1 := files (sample_world (js "{'b': 2}")) in
  let f2 := files (sample_world (js "[ {'b': 2} ]")) in
  parse_args (unicode_decimal w) (argv w) = inr sample_args /\
  read_text (with_files w f1) (file sample_args) = inr (js "{'b': 2}") /\
  read_text (with_files w f2) (file sample_args) = inr (js "[ {'b': 2} ]") /\
  json_loads (int_max_str_digits w) (loads_depth w) (js "{'b': 2}")
  = Scanned bare_record [] /\
  json_loads (int_max_str_digits w) (loads_depth w) (js "[ {'b': 2} ]")
  = Scanned (PList [bare_record]) [] /\
  run (with_files w f1) = run (with_files w f2) /\
  put_requests (snd (run (with_files w f1)))
  = [(py "G", py "S", [(js "{'b': 2}", 6000)])].
Proof.
  intros w f1 f2.
  assert (Hp : parse_args (unicode_decimal w) (argv w) = inr sample_args)
    by reflexivity.
  assert (Hr1 : read_text (with_files w f1) (file sample_args)
                = inr (js "{'b': 2}")) by reflexivity.
  assert (Hr2 : read_text (with_files w f2) (file sample_args)
                = inr (js "[ {'b': 2} ]")) by reflexivity.
  assert (Hj1 : json_loads (int_max_str_digits w) (loads_depth w)
                  (js "{'b': 2}") = Scanned bare_record []) by reflexivity.
  assert (Hj2 : json_loads (int_max_str_digits w) (loads_depth w)
                  (js "[ {'b': 2} ]") = Scanned (PList [bare_record]) [])
    by reflexivity.
  repeat (split; [assumption|]).
  split; [|vm_compute; reflexivity].
  exact (single_object_as_one_element_array w f1 f2 sample_args
           (js "{'b': 2}") (js "[ {'b': 2} ]") [] [] [(py "b", PInt 2)]
           Hp Hr1 Hr2 Hj1 Hj2).
Defined.

Lemma same_inputs_same_request_witness :
  let w1 := sample_world two_records in
  let w2 := refusing_world two_records in
  let recs := [stamped_record; bare_record] in
  before_upload w1 initial = (inr (sample_args, recs), at_upload 2) /\
  serializable w1 recs = true /\
  exists evs,
    put_requests (snd (run w1)) = [(py "G", py "S", evs)] /\
    put_requests (snd (run w2)) = [(py "G", py "S", evs)] /\
    List.length evs = 2%nat.
Proof.
  intros w1 w2 recs.
  assert (H : before_upload w1 initial
              = (inr (sample_args, recs), at_upload 2)) by reflexivity.
  assert (Hs : serializable w1 recs = true) by reflexivity.
  split; [exact H|]. split; [exact Hs|].
  exact (same_inputs_same_request w1 w2 sample_args recs (at_upload 2)
           eq_refl eq_refl (fun k => eq_refl) eq_refl eq_refl eq_refl eq_refl
           eq_refl eq_refl eq_refl H Hs).
Defined.





Lemma malformed_record_stops_before_network_witness :
  let w := sample_world (js "[{'a': 1}, 2]") in
  let v := @PList whole_floats [PDict [(py "a", PInt 1)]; PInt 2] in
  parse_args (unicode_decimal w) (argv w) = inr sample_args /\
  read_text w (file sample_args) = inr (js "[{'a': 1}, 2]") /\
  json_loads (int_max_str_digits w) (loads_depth w) (js "[{'a': 1}, 2]")
  = Scanned v [] /\
  forallb record_ok [PDict [(py "a", PInt 1)]; @PInt whole_floats 2]
  = false /\
  exists x,
    run w = (inl x, [EvOpen (file sample_args)]) /\
    (x = AttributeError \/ x = TypeError) /\
    exit_status (fst (run w)) = 1.
Proof.
  intros w v.
  assert (Hp : parse_args (unicode_decimal w) (argv w) = inr sample_args)
    by reflexivity.
  assert (Hr : read_text w (file sample_args) = inr (js "[{'a': 1}, 2]"))
    by reflexivity.
  assert (Hj : json_loads (int_max_str_digits w) (loads_depth w)
                 (js "[{'a': 1}, 2]") = Scanned v []) by reflexivity.
  assert (Hb : forallb record_ok
                 [PDict [(py "a", PInt 1)]; @PInt whole_floats 2] = false)
    by reflexivity.
  repeat (split; [assumption|]).
  exact (malformed_record_stops_before_network w sample_args
           (js "[{'a': 1}, 2]") v []
           [PDict [(py "a", PInt 1)]; PInt 2] Hp Hr Hj eq_refl Hb).
Defined.

Lemma scalar_input_raises_type_error_witness :
  let w := sample_world (js "42") in
  parse_args (unicode_decimal w) (argv w) = inr sample_args /\
  read_text w (file sample_args) = inr (js "42") /\
  json_loads (F := whole_floats) (int_max_str_digits w) (loads_depth w)
    (js "42") = Scanned (PInt 42) [] /\
  run w = (inl TypeError, [EvOpen (file sample_args)]) /\
  exit_status (fst (run w)) = 1.
Proof.
  intros w.
  assert (Hp : parse_args (unicode_decimal w) (argv w) = inr sample_args)
    by reflexivity.
  assert (Hr : read_text w (file sample_args) = inr (js "42")) by reflexivity.
  assert (Hj : json_loads (F := whole_floats) (int_max_str_digits w)
                 (loads_depth w) (js "42") = Scanned (PInt 42) [])
    by reflexivity.
  repeat (split; [assumption|]).
  exact (scalar_input_raises_type_error w sample_args (js "42") (PInt 42) []
           Hp Hr Hj I).
Defined.

Lemma string_input_behaviour_witness :
  let w := sample_world (js "'abc'") in
  parse_args (unicode_decimal w) (argv w) = inr sample_args /\
  read_text w (file sample_args) = inr (js "'abc'") /\
  json_loads (F := whole_floats) (int_max_str_digits w) (loads_depth w)
    (js "'abc'") = Scanned (PStr (py "abc")) [] /\
  run w = (inl AttributeError, [EvOpen (file sample_args)]).
Proof.
  intros w.
  assert (Hp : parse_args (unicode_decimal w) (argv w) = inr sample_args)
    by reflexivity.
  assert (Hr : read_text w (file sample_args) = inr (js "'abc'"))
    by reflexivity.
  assert (Hj : json_loads (F := whole_floats) (int_max_str_digits w)
                 (loads_depth w) (js "'abc'") = Scanned (PStr (py "abc")) [])
    by reflexivity.
  repeat (split; [assumption|]).
  exact (string_input_behaviour w sample_args (js "'abc'") (py "abc") []
           Hp Hr Hj).
Defined.

Lemma upload_attempted_once_witness :
  let w := refusing_world two_records in
  let recs := [stamped_record; bare_record] in
  before_upload w initial = (inr (sample_args, recs), at_upload 2) /\
  serializable w recs = true /\
  snd (run w) = full_trace sample_args (events_at w 2 recs) /\
  exit_status (fst (run w)) = 1.
Proof.
  intros w recs.
  assert (H : before_upload w initial = (inr (sample_args, recs), at_upload 2))
    by reflexivity.
  assert (Hs : serializable w recs = true) by reflexivity.
  split; [exact H|]. split; [exact Hs|].
  exact (proj1 (upload_attempted_once w sample_args recs (at_upload 2) H) Hs).
Defined.

Lemma exit_zero_means_help_or_accepted_witness :
  let w := sample_world two_records in
  exit_status (fst (run w)) = 0 /\
  ((snd (parse_known_args (unicode_decimal w) (argv w)) = HelpPrinted /\
    snd (run w) = []) \/
   (exists args evs,
      parse_args (unicode_decimal w) (argv w) = inr args /\
      snd (run w) = full_trace args evs /\
      put_ok w (log_group args) (log_stream args) evs = true)).
Proof.
  intros w.
  assert (H : exit_status (fst (run w)) = 0) by (vm_compute; reflexivity).
  split; [exact H|].
  exact (exit_zero_means_help_or_accepted w H).
Defined.

Lemma store_timestamp_overwrites_witness :
  store_timestamp emf_record 4000 = inr stamped_record /\
  store_timestamp stamped_record 9 = store_timestamp emf_record 9.
Proof.
  split; [reflexivity|].
  apply (store_timestamp_overwrites (F := whole_floats) emf_record
           stamped_record 4000 9).
  reflexivity.
Defined.

Lemma normalize_keeps_top_level_witness :
  let w := sample_world two_records in
  let st' := {| ticks := 1; trace := [] |} in
  normalize w [emf_record] initial = (inr [stamped_record], st') /\
  nth_error [emf_record] 0 = Some emf_record /\
  exists d',
    nth_error [stamped_record] 0 = Some (PDict d') /\
    keys d' = [py "_aws"; py "a"] /\
    forall k, k <> py "_aws" ->
      dict_get d' k
      = dict_get [(py "_aws", PDict [(py "Timestamp", PInt 1)]);
                  (py "a", PInt 1)] k.
Proof.
  intros w st'.
  assert (H : normalize w [emf_record] initial = (inr [stamped_record], st'))
    by reflexivity.
  split; [exact H|]. split; [reflexivity|].
  exact (normalize_keeps_top_level (F := whole_floats) w [emf_record]
           [stamped_record] initial st' 0
           [(py "_aws", PDict [(py "Timestamp", PInt 1)]); (py "a", PInt 1)]
           H eq_refl).
Defined.
